(** * Project member invites: the [create] route of tc-project-service

    A shallow embedding of [src/routes/projectMemberInvites/create.js]:
    the e-mail comparison helper [compareEmail], the promise builder
    [buildCreateInvitePromises] and the express handler that the module
    exports.

    Conventions of the model.
    - A JavaScript string is a [string]; one [ascii] stands for one code
      unit.  Case mapping and line terminators are those of the ASCII range:
      the model is exact for ASCII strings.
    - [undefined]/[null] are [None]; a present value is [Some].
    - A promise is represented by its settlement ([Resolved]/[Rejected]);
      a JavaScript exception by [Throw].
    - Numeric identifiers are integers ([Z]).
    - The calls made to collaborators (identity service, storage, event
      bus) are recorded, in call order, in a list of [Effect]s. *)

From Stdlib Require Import String Ascii List ZArith Bool Lia.
Import ListNotations.

Set Implicit Arguments.

Local Open Scope string_scope.
Local Open Scope list_scope.
Local Open Scope Z_scope.

(** ** JavaScript strings *)

Module Js.

(** [String.prototype.toLowerCase] on one ASCII code unit. *)
Definition lowerChar (c : ascii) : ascii :=
  let n := nat_of_ascii c in
  if (Nat.leb 65 n && Nat.leb n 90)%bool then ascii_of_nat (n + 32) else c.

Fixpoint toLowerCase (s : string) : string :=
  match s with
  | EmptyString => EmptyString
  | String c s' => String (lowerChar c) (toLowerCase s')
  end.

(** lodash [_.toLower]: [null] and [undefined] become the empty string. *)
Definition _toLower (v : option string) : string :=
  match v with
  | None => EmptyString
  | Some s => toLowerCase s
  end.

(** [s.replace(pat, by)] with a one-character string pattern: only the
    first occurrence is replaced. *)
Fixpoint replace (pat : ascii) (by_ : string) (s : string) : string :=
  match s with
  | EmptyString => EmptyString
  | String c s' =>
      if Ascii.eqb c pat then by_ ++ s' else String c (replace pat by_ s')
  end.

(** [s.split('')]: the array of the one-character strings of [s]. *)
Fixpoint split_chars (s : string) : list string :=
  match s with
  | EmptyString => []
  | String c s' => String c EmptyString :: split_chars s'
  end.

(** [arr.join(sep)]. *)
Definition join (sep : string) (arr : list string) : string :=
  String.concat sep arr.

End Js.

(** ** Regular expressions

    The fragment of ECMAScript pattern syntax that [new RegExp] can be
    handed by [compareEmail]: a sequence of terms, each an atom (a
    pattern character, an escaped punctuation character, or the wildcard
    [.]) with an optional quantifier [?], [*] or [+] (and its lazy
    marker).  Groups, classes, alternation, anchors, braces and the other
    escapes are outside the fragment and reported as [Unsupported]. *)

Module RegExp.

Inductive Atom : Type :=
| Lit (c : ascii)      (* a character that matches itself *)
| AnyChar.             (* [.] : anything but a line terminator *)

Inductive Quantifier : Type :=
| Once | Optional | ZeroOrMore | OneOrMore.

Definition Term : Type := (Atom * Quantifier)%type.

Definition t : Type := list Term.

Inductive Compiled : Type :=
| Pattern (r : t)
| SyntaxError          (* the constructor throws *)
| Unsupported.         (* outside the modelled fragment *)

Definition isQuantifierChar (c : ascii) : bool :=
  (Ascii.eqb c "?" || Ascii.eqb c "*" || Ascii.eqb c "+")%bool.

(** Syntax characters that open a construct outside the fragment. *)
Definition isStructureChar (c : ascii) : bool :=
  (Ascii.eqb c "^" || Ascii.eqb c "$" || Ascii.eqb c "(" || Ascii.eqb c ")"
   || Ascii.eqb c "[" || Ascii.eqb c "]" || Ascii.eqb c "{" || Ascii.eqb c "}"
   || Ascii.eqb c "|")%bool.

Definition isDigit (c : ascii) : bool :=
  let n := nat_of_ascii c in (Nat.leb 48 n && Nat.leb n 57)%bool.

Definition isLetter (c : ascii) : bool :=
  let n := nat_of_ascii c in
  ((Nat.leb 65 n && Nat.leb n 90) || (Nat.leb 97 n && Nat.leb n 122))%bool.

(** [\w] *)
Definition isWordChar (c : ascii) : bool :=
  (isLetter c || isDigit c || Ascii.eqb c "_")%bool.

Definition quantifierOf (c : ascii) : Quantifier :=
  if Ascii.eqb c "?" then Optional
  else if Ascii.eqb c "*" then ZeroOrMore
  else OneOrMore.

Definition consTerm (tm : Term) (r : Compiled) : Compiled :=
  match r with
  | Pattern ts => Pattern (tm :: ts)
  | other => other
  end.

(** The parser reads the pattern source left to right. *)
Inductive State : Type :=
| AtTerm (lazyOk : bool)   (* before a term; [lazyOk]: a quantifier was just
                              read, so a [?] here is its lazy marker *)
| AfterAtom (a : Atom)     (* an atom was read and waits for its quantifier *)
| AfterBackslash.          (* a [\] was read *)

Fixpoint parse (st : State) (s : string) : Compiled :=
  match s with
  | EmptyString =>
      match st with
      | AtTerm _ => Pattern []
      | AfterAtom a => Pattern [(a, Once)]
      | AfterBackslash => SyntaxError       (* [\] at end of pattern *)
      end
  | String c s' =>
      let term (lazyOk : bool) : Compiled :=
        if (lazyOk && Ascii.eqb c "?")%bool then parse (AtTerm false) s'
        else if isQuantifierChar c then SyntaxError   (* nothing to repeat *)
        else if isStructureChar c then Unsupported
        else if Ascii.eqb c "\" then parse AfterBackslash s'
        else if Ascii.eqb c "." then parse (AfterAtom AnyChar) s'
        else parse (AfterAtom (Lit c)) s' in
      match st with
      | AtTerm lazyOk => term lazyOk
      | AfterAtom a =>
          if isQuantifierChar c
          then consTerm (a, quantifierOf c) (parse (AtTerm true) s')
          else consTerm (a, Once) (term false)
      | AfterBackslash =>
          (* identity escape of a punctuation character; [\d], [\w], [\b],
             back references and the like are outside the fragment *)
          if (isLetter c || isDigit c)%bool then Unsupported
          else parse (AfterAtom (Lit c)) s'
      end
  end.

(** [new RegExp(source)] *)
Definition new (source : string) : Compiled := parse (AtTerm false) source.

Definition isLineTerminator (c : ascii) : bool :=
  (Ascii.eqb c "010" || Ascii.eqb c "013")%bool.

Definition atomMatches (a : Atom) (c : ascii) : bool :=
  match a with
  | Lit d => Ascii.eqb d c
  | AnyChar => negb (isLineTerminator c)
  end.

(** [matchesAt r s]: [r] matches a prefix of [s].  Only the existence of a
    match is computed, so greedy and lazy quantifiers agree. *)
Fixpoint matchesAt (r : t) : string -> bool :=
  match r with
  | [] => fun _ => true
  | (a, q) :: r' =>
      let rest := matchesAt r' in
      let one (k : string -> bool) (s : string) : bool :=
        match s with
        | EmptyString => false
        | String c s' => (atomMatches a c && k s')%bool
        end in
      let many := fix many (s : string) : bool :=
        (rest s || match s with
                   | EmptyString => false
                   | String c s' => atomMatches a c && many s'
                   end)%bool in
      match q with
      | Once => one rest
      | Optional => fun s => (one rest s || rest s)%bool
      | ZeroOrMore => many
      | OneOrMore => one many
      end
  end.

(** [regex.test(s)] for a regular expression without flags: a match may
    start at any position. *)
Fixpoint test (r : t) (s : string) : bool :=
  (matchesAt r s ||
   match s with
   | EmptyString => false
   | String _ s' => test r s'
   end)%bool.

End RegExp.

(** ** [compareEmail] *)

(** A JavaScript exception. [Rejection] wraps the error a collaborator's
    promise was rejected with. *)
Record Error : Type := mkError {
  err_status : option Z;
  err_message : string;
  err_statusText : option string
}.

Inductive Exn : Type :=
| RegExpSyntaxError
| Rejection (e : Error).

Definition statusText (e : Exn) : option string :=
  match e with
  | RegExpSyntaxError => None
  | Rejection err => err_statusText err
  end.

(** The completion of a JavaScript expression. *)
Inductive Completion (A : Type) : Type :=
| Return (a : A)
| Throw (e : Exn).
Arguments Return {A} a.
Arguments Throw {A} e.

Record Options : Type := { UNIQUE_GMAIL_VALIDATION : bool }.

(** [[\w.+-]] *)
Definition isLocalPartChar (c : ascii) : bool :=
  (RegExp.isWordChar c || Ascii.eqb c "." || Ascii.eqb c "+" || Ascii.eqb c "-")%bool.

(** The longest prefix of [s] made of characters satisfying [p], and the
    rest. *)
Fixpoint span (p : ascii -> bool) (s : string) : string * string :=
  match s with
  | EmptyString => (EmptyString, EmptyString)
  | String c s' =>
      if p c then let (pre, post) := span p s' in (String c pre, post)
      else (EmptyString, s)
  end.

(** [/(^[\w.+-]+)(@gmail\.com|@googlemail\.com)$/g.exec(s)] on a fresh
    literal: the two captured groups, or [None] for [null].  The first group
    is greedy and must be followed by [@], which is not in its class, so it is
    the longest prefix in the class; the second group runs to the end. *)
Definition gmailExec (s : string) : option (string * string) :=
  let (local, domain) := span isLocalPartChar s in
  match local with
  | EmptyString => None
  | _ =>
      if (String.eqb domain "@gmail.com" || String.eqb domain "@googlemail.com")%bool
      then Some (local, domain)
      else None
  end.

Definition compareEmail (email1 email2 : option string) (options : Options)
  : Completion bool :=
  let plain := Return (String.eqb (Js._toLower email1) (Js._toLower email2)) in
  if UNIQUE_GMAIL_VALIDATION options then
    match gmailExec (Js._toLower email1) with
    | Some (group1, group2) =>
        let address := Js.replace "." EmptyString group1 in
        let emailDomain := Js.replace "." "\." group2 in
        let regexAddress := Js.join "\.?" (Js.split_chars address) in
        match RegExp.new (regexAddress ++ emailDomain) with
        | RegExp.Pattern regex => Return (RegExp.test regex (Js._toLower email2))
        | RegExp.SyntaxError => Throw RegExpSyntaxError
        | RegExp.Unsupported => Throw RegExpSyntaxError   (* never reached: see
                                                             [compareEmail_pattern_in_fragment] *)
        end
    | None => plain
    end
  else plain.

Definition gmailOn : Options := {| UNIQUE_GMAIL_VALIDATION := true |}.
Definition gmailOff : Options := {| UNIQUE_GMAIL_VALIDATION := false |}.


(** ** Data model *)

(** Modelled from the spec: the module [constants] is not part of the source
    tree; the route uses two members of [INVITE_STATUS]. *)
Inductive INVITE_STATUS : Type := PENDING | REQUESTED.

(** A row of [ProjectMemberInvite]: an existing invitation read from the
    store, the [data] handed to [create], or the created record. *)
Module Invite.
Record t : Type := mk {
  projectId : Z;
  userId : option Z;
  email : option string;
  role : string;
  status : INVITE_STATUS;
  createdBy : Z;
  updatedBy : Z
}.
End Invite.

(** [req.body.param] *)
Module Param.
Record t : Type := mk {
  userIds : option (list Z);
  emails : option (list string);
  role : string
}.
End Param.

(** An element of [req.context.currentProjectMembers]. *)
Module Member.
Record t : Type := mk { userId : Z }.
End Member.

(** An account returned by [util.lookupUserEmails]; [id] stands for
    [parseInt(user.id, 10)]. *)
Module User.
Record t : Type := mk { id : Z; email : option string }.
End User.

(** An element of [failed]. *)
Module Failure.
Record t : Type := mk {
  userId : option Z;
  email : option string;
  message : option string
}.
End Failure.

(** [req.authUser], the caller. *)
Module AuthUser.
Record t : Type := mk { userId : Z; roles : list string }.
End AuthUser.

Module Req.
Record t : Type := mk {
  authUser : AuthUser.t;
  params_projectId : Z;               (* [_.parseInt(req.params.projectId)] *)
  body_param : Param.t;
  context_currentProjectMembers : list Member.t
}.
End Req.

Inductive Promise (A : Type) : Type :=
| Resolved (a : A)
| Rejected (e : Error).
Arguments Resolved {A} a.
Arguments Rejected {A} e.

(** [Promise.all] over promises that were all started already: the values
    in order, or a rejection (the first one in array order). *)
Fixpoint Promise_all {A : Type} (ps : list (Promise A)) : Promise (list A) :=
  match ps with
  | [] => Resolved []
  | Rejected e :: _ => Rejected e
  | Resolved a :: ps' =>
      match Promise_all ps' with
      | Resolved l => Resolved (a :: l)
      | Rejected e => Rejected e
      end
  end.

(** The constants the route imports from [constants], which is not part of
    the source tree: parameters of the model. *)
Class Constants : Type := {
  CUSTOMER : string;                            (* PROJECT_MEMBER_ROLE.CUSTOMER *)
  COPILOT : string;                             (* PROJECT_MEMBER_ROLE.COPILOT *)
  PROJECT_MEMBER_MANAGER_ROLES : list string;
  MANAGER_ROLES : list string;
  CONNECT_ADMIN : string;                       (* USER_ROLE.CONNECT_ADMIN *)
  COPILOT_MANAGER : string                      (* USER_ROLE.COPILOT_MANAGER *)
}.

(** Modelled from the spec: the collaborators ([util], [models], [config]),
    which are not part of the source tree, as the answers they give.
    [hasRoles a roles] stands for [util.hasRoles(req, roles)], which tells
    whether the caller [a = req.authUser] holds one of [roles];
    [lookupUserEmails emails] for [util.lookupUserEmails(req, emails)].
    [createRejection d] is the error [models.ProjectMemberInvite.create(d)]
    is rejected with, if any; when it resolves, the record is [d] (the
    persisted id is not modelled). *)
Record Env : Type := {
  hasRoles : AuthUser.t -> list string -> bool;
  hasIntersection : list string -> list string -> bool;
  getUserRoles : Z -> Promise (list string);
  lookupUserEmails : list string -> Promise (list User.t);
  getPendingInvitesForProject : Z -> Promise (list Invite.t);
  createRejection : Invite.t -> option Error;
  config_UNIQUE_GMAIL_VALIDATION : bool
}.

(** The calls that reach a collaborator. *)
Inductive Effect : Type :=
| GetUserRoles (userId : Z)
| GetPendingInvitesForProject (projectId : Z)
| LookupUserEmails (emails : list string)
| Create (data : Invite.t)
| Emit (v : Invite.t)
| Publish (v : Invite.t)
| SendInviteEmail (projectId : Z) (v : Invite.t).

Record Body : Type := {
  success : list Invite.t;
  failed : option (list Failure.t)
}.

(** What the handler answers: [next(err)] or [res.status(s).json(body)]. *)
Inductive Outcome : Type :=
| Next (err : Error)
| Json (status : Z) (body : Body).

(** ** lodash helpers *)

(** [_.remove(array, pred)]: what stays in [array]. *)
Definition _remove {A : Type} (pred : A -> bool) (array : list A) : list A :=
  filter (fun x => negb (pred x)) array.

(** [_.some] with a predicate that may throw; it stops at the first hit. *)
Fixpoint _some {A : Type} (pred : A -> Completion bool) (l : list A)
  : Completion bool :=
  match l with
  | [] => Return false
  | x :: l' =>
      match pred x with
      | Throw e => Throw e
      | Return true => Return true
      | Return false => _some pred l'
      end
  end.

(** [array.filter(pred)] with a predicate that may throw. *)
Fixpoint filterC {A : Type} (pred : A -> Completion bool) (l : list A)
  : Completion (list A) :=
  match l with
  | [] => Return []
  | x :: l' =>
      match pred x with
      | Throw e => Throw e
      | Return b =>
          match filterC pred l' with
          | Throw e => Throw e
          | Return r => Return (if b then x :: r else r)
          end
      end
  end.

Definition notC (c : Completion bool) : Completion bool :=
  match c with
  | Return b => Return (negb b)
  | Throw e => Throw e
  end.

(** [_.remove] with a predicate that may throw: what stays. *)
Definition _removeC {A : Type} (pred : A -> Completion bool) (l : list A)
  : Completion (list A) :=
  filterC (fun x => notC (pred x)) l.

(** [_.zip]: the shorter array is padded with [undefined]. *)
Fixpoint _zip {A B : Type} (l1 : list A) (l2 : list B)
  : list (option A * option B) :=
  match l1 with
  | [] => map (fun b => (None, Some b)) l2
  | a :: l1' =>
      match l2 with
      | [] => (Some a, None) :: _zip l1' []
      | b :: l2' => (Some a, Some b) :: _zip l1' l2'
      end
  end.

(** [x === u] for a column that may be [null]. *)
Definition strictEqZ (x : option Z) (u : Z) : bool :=
  match x with
  | Some v => Z.eqb v u
  | None => false
  end.

Definition optZ_eqb (x y : option Z) : bool :=
  match x, y with
  | Some a, Some b => Z.eqb a b
  | None, None => true
  | _, _ => false
  end.

Definition isSome {A : Type} (o : option A) : bool :=
  match o with Some _ => true | None => false end.

(** Truthiness of an optional number and of an optional string. *)
Definition truthyZ (x : option Z) : bool :=
  match x with
  | Some v => negb (Z.eqb v 0)
  | None => false
  end.

Definition truthyString (x : option string) : bool :=
  match x with
  | Some s => negb (String.eqb s EmptyString)
  | None => false
  end.

(** ** The route *)

Section Route.

Context {K : Constants}.
Variable env : Env.

Definition includes (l : list string) (x : string) : bool :=
  existsb (String.eqb x) l.

(** Line 70: is user [u] invited already? *)
Definition invitedUserId (invites : list Invite.t) (u : Z) : bool :=
  existsb (fun i => strictEqZ (Invite.userId i) u) invites.

(** Lines 72-76, 102-107 and 115-119: [_.clone(data)] with its identity
    fields set. *)
Definition withIdentity (data : Invite.t) (userId : option Z)
           (email : option string) : Invite.t :=
  {| Invite.projectId := Invite.projectId data;
     Invite.userId := userId;
     Invite.email := email;
     Invite.role := Invite.role data;
     Invite.status := Invite.status data;
     Invite.createdBy := Invite.createdBy data;
     Invite.updatedBy := Invite.updatedBy data |}.

Definition byUserId (data : Invite.t) (userId : Z) : Invite.t :=
  withIdentity data (Some userId) (Invite.email data).

Definition byExistentUser (data : Invite.t) (user : User.t) : Invite.t :=
  withIdentity data (Some (User.id user))
               (option_map Js.toLowerCase (User.email user)).

Definition byEmail (data : Invite.t) (email : string) : Invite.t :=
  withIdentity data (Invite.userId data) (Some (Js.toLowerCase email)).

(** Line 124: the entry pushed for an e-mail when the look-up chain fails. *)
Definition lookupFailure (error : Exn) (email : string) : Failure.t :=
  {| Failure.userId := None; Failure.email := Some email;
     Failure.message := statusText error |}.

(** Lines 94-97: is [inviteEmail] the address of no account found? *)
Definition isNonExistent (existentUsers : list User.t) (inviteEmail : string)
  : Completion bool :=
  notC (_some (fun existentUser =>
                 compareEmail (User.email existentUser) (Some inviteEmail) gmailOff)
              existentUsers).

(** Lines 111-113: is [email] invited already? *)
Definition invitedEmail (invites : list Invite.t) (email : string)
  : Completion bool :=
  _some (fun i =>
           compareEmail (Invite.email i) (Some email)
             {| UNIQUE_GMAIL_VALIDATION := config_UNIQUE_GMAIL_VALIDATION env |})
        invites.

(** [buildCreateInvitePromises]: the data [create] is called with, in call
    order (the result array holds the promises of these calls), the array
    [failed] after the call, and the collaborators called. *)
Definition buildCreateInvitePromises (req : Req.t) (invite : Param.t)
           (invites : list Invite.t) (data : Invite.t)
           (failed : list Failure.t)
  : list Invite.t * list Failure.t * list Effect :=
  let invitePromises :=
    match Param.userIds invite with
    | Some userIds => map (byUserId data) (_remove (invitedUserId invites) userIds)
    | None => []
    end in
  match Param.emails invite with
  | None => (invitePromises, failed, map Create invitePromises)
  | Some emails =>
      let catch (error : Exn) (pushed : list Invite.t) :=
        (invitePromises ++ pushed,
         failed ++ map (lookupFailure error) emails,
         map Create invitePromises ++ LookupUserEmails emails :: map Create pushed) in
      match lookupUserEmails env emails with
      | Rejected error => catch (Rejection error) []
      | Resolved existentUsers =>
          match filterC (isNonExistent existentUsers) emails with
          | Throw error => catch error []
          | Return nonExistentUserEmails =>
              let existent :=
                map (byExistentUser data)
                    (_remove (fun user => invitedUserId invites (User.id user))
                             existentUsers) in
              match _removeC (invitedEmail invites) nonExistentUserEmails with
              | Throw error => catch error existent
              | Return remaining =>
                  let pushed := existent ++ map (byEmail data) remaining in
                  (invitePromises ++ pushed, failed,
                   map Create invitePromises
                   ++ LookupUserEmails emails :: map Create pushed)
              end
          end
      end
  end.

(** [models.ProjectMemberInvite.create(d)] *)
Definition create (d : Invite.t) : Promise Invite.t :=
  match createRejection env d with
  | Some error => Rejected error
  | None => Resolved d
  end.

(** Line 209: members already in the team are removed. *)
Definition isMember (members : list Member.t) (u : Z) : bool :=
  existsb (fun m => Z.eqb (Member.userId m) u) members.

(** Lines 213-218: the user ids whose roles are fetched. *)
Definition roleLookups (invite : Param.t) (userIds : option (list Z)) : list Z :=
  match userIds with
  | Some ids =>
      if includes PROJECT_MEMBER_MANAGER_ROLES (Param.role invite) then ids else []
  | None => []
  end.

(** Lines 224-225. *)
Definition emailRoleFailure (email : string) : Failure.t :=
  {| Failure.userId := None; Failure.email := Some email;
     Failure.message := Some ("Emails can only be used for " ++ CUSTOMER)%string |}.

(** Lines 236-243: [forbidUserList]. *)
Definition forbidden (pair : option Z * option (option (list string))) : bool :=
  match snd pair with
  | Some (Some roles) => negb (hasIntersection env MANAGER_ROLES roles)
  | _ => false                                   (* [roles] is [undefined] *)
  end.

Definition forbidUserList (userIds : list Z) (rolesList : list (option (list string)))
  : list (option Z) :=
  map fst (filter forbidden (_zip userIds rolesList)).

(** Lines 245-246. *)
Definition managerFailure (id : option Z) : Failure.t :=
  {| Failure.userId := id; Failure.email := None;
     Failure.message := Some "cannot be added with a Manager role to the project" |}.

(** Lines 252-262: the template of the new invites. *)
Definition inviteData (req : Req.t) (invite : Param.t) : Invite.t :=
  {| Invite.projectId := Req.params_projectId req;
     Invite.userId := None;
     Invite.email := None;
     Invite.role := Param.role invite;
     Invite.status :=
       if (negb (String.eqb (Param.role invite) COPILOT)
           || hasRoles env (Req.authUser req) [CONNECT_ADMIN; COPILOT_MANAGER])%bool
       then PENDING else REQUESTED;
     Invite.createdBy := AuthUser.userId (Req.authUser req);
     Invite.updatedBy := AuthUser.userId (Req.authUser req) |}.

Definition isPending (s : INVITE_STATUS) : bool :=
  match s with PENDING => true | REQUESTED => false end.

(** Lines 267-284: what is done for one created invite. *)
Definition announce (projectId : Z) (v : Invite.t) : list Effect :=
  Emit v :: Publish v ::
  (if (truthyString (Invite.email v) && negb (truthyZ (Invite.userId v))
       && isPending (Invite.status v))%bool
   then [SendInviteEmail projectId v] else []).

(** Lines 289-296. *)
Definition respond (values : list Invite.t) (failed : list Failure.t) : Outcome :=
  match failed with
  | [] => Json 201 {| success := values; failed := None |}
  | _ :: _ => Json 403 {| success := values; failed := Some failed |}
  end.

(** The state of the handler when it reaches line 250: [invite] as mutated
    so far and [failed]; or the error passed to [next]. *)
Inductive Checked : Type :=
| Aborted (err : Error)
| Proceed (invite : Param.t) (failed : list Failure.t).

(** Lines 188-249: validation, the request-level gate, removal of members,
    the e-mail role restriction and the per-candidate manager check. *)
Definition check (req : Req.t) : Checked * list Effect :=
  let invite := Req.body_param req in
  if (negb (isSome (Param.userIds invite)) && negb (isSome (Param.emails invite)))%bool
  then (Aborted (mkError (Some 400) "Either userIds or emails are required" None), [])
  else if (negb (hasRoles env (Req.authUser req) MANAGER_ROLES)
           && negb (String.eqb (Param.role invite) CUSTOMER))%bool
  then (Aborted (mkError (Some 403)
                   ("You are not allowed to invite user as " ++ Param.role invite)%string
                   None), [])
  else
    let members := Req.context_currentProjectMembers req in
    let userIds := option_map (_remove (isMember members)) (Param.userIds invite) in
    let lookups := roleLookups invite userIds in
    let promises := map (getUserRoles env) lookups in
    let '(failed, emails) :=
      match Param.emails invite with
      | Some emails =>
          if negb (String.eqb (Param.role invite) CUSTOMER)
          then (map emailRoleFailure emails, None)
          else ([], Some emails)
      | None => ([], None)
      end in
    let settled : Promise (list (option (list string))) :=
      match promises with
      | [] => Resolved [None]
      | _ :: _ =>
          match Promise_all promises with
          | Resolved l => Resolved (map Some l)
          | Rejected e => Rejected e
          end
      end in
    match settled with
    | Rejected err => (Aborted err, map GetUserRoles lookups)
    | Resolved rolesList =>
        let invite' :=
          match userIds with
          | Some ids =>
              if includes PROJECT_MEMBER_MANAGER_ROLES (Param.role invite) then
                let forbid := forbidUserList ids rolesList in
                match forbid with
                | [] => (failed, userIds)
                | _ :: _ =>
                    (failed ++ map managerFailure forbid,
                     Some (filter (fun userId =>
                                     negb (existsb (optZ_eqb (Some userId)) forbid))
                                  ids))
                end
              else (failed, userIds)
          | None => (failed, userIds)
          end in
        (Proceed {| Param.userIds := snd invite'; Param.emails := emails;
                    Param.role := Param.role invite |} (fst invite'),
         map GetUserRoles lookups)
    end.

(** The handler exported by the module (after the validation and permission
    middlewares). *)
Definition handler (req : Req.t) : Outcome * list Effect :=
  match check req with
  | (Aborted err, effects) => (Next err, effects)
  | (Proceed invite failed, effects) =>
      let projectId := Req.params_projectId req in
      let effects := effects ++ [GetPendingInvitesForProject projectId] in
      match getPendingInvitesForProject env projectId with
      | Rejected err => (Next err, effects)
      | Resolved invites =>
          let data := inviteData req invite in
          let '(datas, failed, built) :=
            buildCreateInvitePromises req invite invites data failed in
          let effects := effects ++ built in
          match Promise_all (map create datas) with
          | Rejected err => (Next err, effects)
          | Resolved values =>
              (respond values failed, effects ++ flat_map (announce projectId) values)
          end
      end
  end.

End Route.

(** ** A concrete configuration

    Sample values in the shape of the repository's constants and a family of
    collaborators, used to run the handler on concrete requests. *)

Module Sample.

Definition constants : Constants := {|
  CUSTOMER := "customer";
  COPILOT := "copilot";
  PROJECT_MEMBER_MANAGER_ROLES := ["manager"; "account_manager"];
  MANAGER_ROLES := ["Connect Admin"; "administrator"; "Connect Manager";
                    "Connect Account Manager"; "Connect Copilot Manager"];
  CONNECT_ADMIN := "Connect Admin";
  COPILOT_MANAGER := "Connect Copilot Manager"
|}.

Definition intersects (l1 l2 : list string) : bool :=
  existsb (fun x => existsb (String.eqb x) l2) l1.

(** User [u] holds [rolesOf u], the e-mail look-up answers [accounts], the
    store holds [invites] and accepts every new invite. *)
Definition world (rolesOf : Z -> list string)
           (accounts : Promise (list User.t)) (invites : list Invite.t)
           (gmail : bool)
  : Env :=
  {| hasRoles := fun caller roles => intersects (AuthUser.roles caller) roles;
     hasIntersection := intersects;
     getUserRoles := fun u => Resolved (rolesOf u);
     lookupUserEmails := fun _ => accounts;
     getPendingInvitesForProject := fun _ => Resolved invites;
     createRejection := fun _ => None;
     config_UNIQUE_GMAIL_VALIDATION := gmail |}.

(** The handler under the sample constants. *)
Definition run (env : Env) (req : Req.t) : Outcome * list Effect :=
  @handler constants env req.

Definition request (callerRoles : list string) (userIds : option (list Z))
           (emails : option (list string)) (role : string) (members : list Z)
  : Req.t :=
  {| Req.authUser := {| AuthUser.userId := 40051333; AuthUser.roles := callerRoles |};
     Req.params_projectId := 1;
     Req.body_param := {| Param.userIds := userIds; Param.emails := emails;
                          Param.role := role |};
     Req.context_currentProjectMembers := map Member.mk members |}.

(** An invite of project 1 made by the sample caller. *)
Definition invite (userId : option Z) (email : option string) (role : string)
           (status : INVITE_STATUS) : Invite.t :=
  Invite.mk 1 userId email role status 40051333 40051333.

Definition noRoles (u : Z) : list string := [].

(** User 1 is a Connect manager, the others are plain users. *)
Definition oneManager (u : Z) : list string :=
  if Z.eqb u 1 then ["Connect Manager"] else ["Topcoder User"].

(** Nothing is pending and the identity service knows no account. *)
Definition fresh : Env := world noRoles (Resolved []) [] false.

(** The identity service knows the account 9 of Bob; alias
    canonicalisation is on. *)
Definition bobKnown (invites : list Invite.t) : Env :=
  world noRoles (Resolved [User.mk 9 (Some "Bob@x.com")]) invites true.

(** The collaborators of the manager scenario. *)
Definition managerWorld : Env := world oneManager (Resolved []) [] false.

(** A Connect manager invites the users 1 and 2 as project managers. *)
Definition managerRequest : Req.t :=
  request ["Connect Manager"] (Some [1; 2]) None "manager" [].

(** The same, with an e-mail. *)
Definition mixedRequest : Req.t :=
  request ["Connect Manager"] (Some [1; 2]) (Some ["a@x.com"]) "manager" [].

(** A customer invites a user id, the address of Bob and a gmail address. *)
Definition customerRequest : Req.t :=
  request [] (Some [7]) (Some ["bob@X.com"; "jo.doe@gmail.com"]) "customer" [].

Definition customerCreated : list Invite.t :=
  [invite (Some 7) None "customer" PENDING;
   invite (Some 9) (Some "bob@x.com") "customer" PENDING;
   invite None (Some "jo.doe@gmail.com") "customer" PENDING].

(** A Connect manager asks for user 7 as a copilot. *)
Definition copilotRequest : Req.t :=
  request ["Connect Manager"] (Some [7]) None "copilot" [].

(** The scenario of the specification: user 7 as a customer. *)
Definition plainRequest : Req.t :=
  request [] (Some [7]) None "customer" [].

(** A user id and an e-mail for the customer role. *)
Definition userAndEmail : Param.t :=
  {| Param.userIds := Some [7]; Param.emails := Some ["a@x.com"];
     Param.role := "customer" |}.

Definition lookupDown : Error :=
  {| err_status := Some 503;
     err_message := "identity service unavailable";
     err_statusText := Some "Service Unavailable" |}.


(** The e-mail look-up is rejected. *)
Definition lookupRejected : Env := world noRoles (Rejected lookupDown) [] false.

(** Bob is known, [jodoe@gmail.com] is invited already. *)
Definition aliasInvited : Env :=
  bobKnown [invite None (Some "jodoe@gmail.com") "customer" PENDING].

Definition threeEmails : Param.t :=
  {| Param.userIds := None;
     Param.emails := Some ["bob@X.com"; "jo.doe@gmail.com"; "new@x.com"];
     Param.role := "customer" |}.

End Sample.


(** ** Auxiliary definitions for the statements *)

(** A completion that returned [true]. *)
Definition isTrue (c : Completion bool) : bool :=
  match c with
  | Return true => true
  | _ => false
  end.

Definition returns {A : Type} (c : Completion A) : Prop :=
  exists a, c = Return a.

(** The collaborators of [env] with the store answering [invites]. *)
Definition withPendingInvites (env : Env) (invites : list Invite.t) : Env :=
  {| hasRoles := hasRoles env;
     hasIntersection := hasIntersection env;
     getUserRoles := getUserRoles env;
     lookupUserEmails := lookupUserEmails env;
     getPendingInvitesForProject := fun _ => Resolved invites;
     createRejection := createRejection env;
     config_UNIQUE_GMAIL_VALIDATION := config_UNIQUE_GMAIL_VALIDATION env |}.

(** The request [req] without its [emails]. *)
Definition withoutEmails (req : Req.t) : Req.t :=
  {| Req.authUser := Req.authUser req;
     Req.params_projectId := Req.params_projectId req;
     Req.body_param :=
       {| Param.userIds := Param.userIds (Req.body_param req);
          Param.emails := None;
          Param.role := Param.role (Req.body_param req) |};
     Req.context_currentProjectMembers := Req.context_currentProjectMembers req |}.

Definition configured (env : Env) : Options :=
  {| UNIQUE_GMAIL_VALIDATION := config_UNIQUE_GMAIL_VALIDATION env |}.

(** The elements of an optional array. *)
Definition candidates {A : Type} (o : option (list A)) : list A :=
  match o with
  | Some l => l
  | None => []
  end.

(** Every character of [s] satisfies [p]. *)
Fixpoint forallChars (p : ascii -> bool) (s : string) : bool :=
  match s with
  | EmptyString => true
  | String c s' => (p c && forallChars p s')%bool
  end.

(** The pattern source [compareEmail] hands to [new RegExp]. *)
Definition patternSource (group1 group2 : string) : string :=
  (Js.join "\.?" (Js.split_chars (Js.replace "." EmptyString group1))
   ++ Js.replace "." "\." group2)%string.

(** What follows a character of the address in the pattern source: the
    optional-dot marker and the next characters, or the domain. *)
Definition afterChar (address emailDomain : string) : string :=
  match address with
  | EmptyString => emailDomain
  | String _ _ =>
      ("\.?" ++ Js.join "\.?" (Js.split_chars address) ++ emailDomain)%string
  end.

(** The second group once its dot is escaped. *)
Definition gmailDomain (dom : string) : Prop :=
  dom = "@gmail\.com" \/ dom = "@googlemail\.com".

(** A character of the local part other than [.] and [+]. *)
Definition isPlainChar (c : ascii) : bool :=
  (isLocalPartChar c && negb (Ascii.eqb c ".") && negb (Ascii.eqb c "+"))%bool.

(** [Dotted s s']: [s'] is the non-empty string [s] with at most one dot
    inserted between consecutive characters. *)
Inductive Dotted : string -> string -> Prop :=
| Dotted_last (c : ascii) : Dotted (String c EmptyString) (String c EmptyString)
| Dotted_next (c : ascii) (s s' : string) :
    Dotted s s' -> Dotted (String c s) (String c s')
| Dotted_dot (c : ascii) (s s' : string) :
    Dotted s s' -> Dotted (String c s) (String c (String "." s')).

(** The regular expression that matches [s] literally. *)
Fixpoint literal (s : string) : RegExp.t :=
  match s with
  | EmptyString => []
  | String c s' => (RegExp.Lit c, RegExp.Once) :: literal s'
  end.

(** The characters of [s] with an optional dot between them. *)
Fixpoint interleaved (s : string) : RegExp.t :=
  match s with
  | EmptyString => []
  | String c s' =>
      (RegExp.Lit c, RegExp.Once)
      :: match s' with
         | EmptyString => []
         | String _ _ => (RegExp.Lit ".", RegExp.Optional) :: interleaved s'
         end
  end.

(** ** Auxiliary definitions for further properties *)

(** Does [c] occur in [s]? *)
Fixpoint containsChar (c : ascii) (s : string) : bool :=
  match s with
  | EmptyString => false
  | String d s' => (Ascii.eqb d c || containsChar c s')%bool
  end.

(** Is the last character of [s] a dot? *)
Fixpoint endsWithDot (s : string) : bool :=
  match s with
  | EmptyString => false
  | String c EmptyString => Ascii.eqb c "."
  | String _ s' => endsWithDot s'
  end.

(** The atom a character of the address becomes in the pattern: a dot is
    the wildcard, any other character of the local part stands for itself. *)
Definition atomOf (c : ascii) : RegExp.Atom :=
  if Ascii.eqb c "." then RegExp.AnyChar else RegExp.Lit c.

(** The atoms of [s] with an optional dot between them. *)
Fixpoint addressTerms (s : string) : RegExp.t :=
  match s with
  | EmptyString => []
  | String c s' =>
      (atomOf c, RegExp.Once)
      :: match s' with
         | EmptyString => []
         | String _ _ => (RegExp.Lit ".", RegExp.Optional) :: addressTerms s'
         end
  end.

(** A completion that threw. *)
Definition throws {A : Type} (c : Completion A) : Prop :=
  exists e, c = Throw e.

(** The invites handed to [create], those emitted and those published, in
    call order. *)
Definition created (effects : list Effect) : list Invite.t :=
  flat_map (fun x => match x with Create d => [d] | _ => [] end) effects.

Definition emitted (effects : list Effect) : list Invite.t :=
  flat_map (fun x => match x with Emit v => [v] | _ => [] end) effects.

Definition published (effects : list Effect) : list Invite.t :=
  flat_map (fun x => match x with Publish v => [v] | _ => [] end) effects.

(** The events of the last part of the handler (lines 267-284). *)
Definition isAnnouncement (x : Effect) : bool :=
  match x with
  | Emit _ | Publish _ | SendInviteEmail _ _ => true
  | _ => false
  end.

(** The roles fetched for user [u] do not intersect [MANAGER_ROLES]. *)
Definition lacksManagerRole {K : Constants} (env : Env) (u : Z) : bool :=
  match getUserRoles env u with
  | Resolved roles => negb (hasIntersection env MANAGER_ROLES roles)
  | Rejected _ => false
  end.

(** The user ids of the request that are not members of the project. *)
Definition nonMembers (req : Req.t) : list Z :=
  _remove (isMember (Req.context_currentProjectMembers req))
          (candidates (Param.userIds (Req.body_param req))).

(** ** [sendInviteEmail] *)

(** A row of [Project] read with [raw: true]. *)
Module Project.
Record t : Type := mk { name : string }.
End Project.

(** The initiator of an invitation mail: a member's details as fetched, or
    the placeholder built from the caller's id. *)
Module Initiator.
Record t : Type := mk { userId : Z; firstName : string; lastName : string }.
End Initiator.

(** The values [sendInviteEmail] reads from [config], [constants] and the
    environment, none of which is part of the source tree: parameters of the
    model.  [isSSO] stands for [util.isSSO]. *)
Record MailConfig : Type := {
  PROJECT_MEMBER_EMAIL_INVITE_CREATED : string;
  connectUrl : string;
  accountsAppUrl : string;
  inviteEmailSubject : string;
  inviteEmailSectionTitle : string;
  EMAIL_INVITE_FROM_NAME : string;
  EMAIL_INVITE_FROM_EMAIL : string;
  NODE_ENV : string;
  isSSO : Project.t -> bool
}.

(** What [models.Project.find] and [util.getMemberDetailsByUserIds] answer:
    the project or [null], the details or a falsy value. *)
Record MailWorld : Type := {
  findProject : Z -> Promise (option Project.t);
  getMemberDetailsByUserIds : Z -> Promise (option (list Initiator.t))
}.

(** The second argument of [createEvent]. *)
Record MailEvent : Type := {
  data_connectURL : string;
  data_accountsAppURL : string;
  data_subject : string;
  project_name : string;
  project_projectId : Z;
  section_title : string;
  section_projectName : string;
  section_projectId : Z;
  section_initiator : Initiator.t;
  section_isSSO : bool;
  recipients : list (option string);
  version : string;
  from_name : string;
  from_email : string;
  categories : list string
}.

(** What is caught and logged by [sendInviteEmail]. *)
Inductive MailError : Type :=
| LookupRejected (e : Error)
| TypeError.                 (* a property of [null] is read *)

Inductive MailEffect : Type :=
| FindProject (projectId : Z)
| GetMemberDetails (userId : Z)
| CreateEvent (type : string) (event : MailEvent)
| LogError (error : MailError).

(** [sendInviteEmail(req, projectId, invite)]: the calls made, in order.  The
    promise it returns is never rejected. *)
Definition sendInviteEmail (config : MailConfig) (world : MailWorld)
           (authUser : AuthUser.t) (projectId : Z) (invite : Invite.t)
  : list MailEffect :=
  let emailEventType := PROJECT_MEMBER_EMAIL_INVITE_CREATED config in
  FindProject projectId :: GetMemberDetails (AuthUser.userId authUser) ::
  match findProject world projectId,
        getMemberDetailsByUserIds world (AuthUser.userId authUser) with
  | Rejected error, _ => [LogError (LookupRejected error)]
  | Resolved _, Rejected error => [LogError (LookupRejected error)]
  | Resolved project, Resolved details =>
      let initiator :=
        match details with
        | Some (first :: _) => first
        | _ => {| Initiator.userId := AuthUser.userId authUser;
                  Initiator.firstName := "Connect";
                  Initiator.lastName := "User" |}
        end in
      match project with
      | None => [LogError TypeError]
      | Some project =>
          [CreateEvent emailEventType
             {| data_connectURL := connectUrl config;
                data_accountsAppURL := accountsAppUrl config;
                data_subject := inviteEmailSubject config;
                project_name := Project.name project;
                project_projectId := projectId;
                section_title := inviteEmailSectionTitle config;
                section_projectName := Project.name project;
                section_projectId := projectId;
                section_initiator := initiator;
                section_isSSO := isSSO config project;
                recipients := [Invite.email invite];
                version := "v3";
                from_name := EMAIL_INVITE_FROM_NAME config;
                from_email := EMAIL_INVITE_FROM_EMAIL config;
                categories :=
                  [Js.toLowerCase (NODE_ENV config ++ ":" ++ emailEventType)] |}]
      end
  end.

(** The events created among the calls made. *)
Definition eventsOf (effects : list MailEffect) : list MailEvent :=
  flat_map (fun x => match x with CreateEvent _ event => [event] | _ => [] end)
           effects.

(** ** Further concrete configurations *)

Module Scenario.

Import Sample.

(** The roles of user 2 cannot be fetched. *)
Definition rolesDown : Env :=
  {| hasRoles := fun caller roles => intersects (AuthUser.roles caller) roles;
     hasIntersection := intersects;
     getUserRoles := fun u => if Z.eqb u 2 then Rejected lookupDown
                              else Resolved ["Connect Manager"];
     lookupUserEmails := fun _ => Resolved [];
     getPendingInvitesForProject := fun _ => Resolved [];
     createRejection := fun _ => None;
     config_UNIQUE_GMAIL_VALIDATION := false |}.

Definition storeError : Error :=
  {| err_status := None;
     err_message := "insert failed";
     err_statusText := None |}.

(** The store rejects the invite of user 8. *)
Definition storeDown : Env :=
  {| hasRoles := fun caller roles => intersects (AuthUser.roles caller) roles;
     hasIntersection := intersects;
     getUserRoles := fun _ => Resolved [];
     lookupUserEmails := fun _ => Resolved [];
     getPendingInvitesForProject := fun _ => Resolved [];
     createRejection := fun d => if optZ_eqb (Invite.userId d) (Some 8)
                                 then Some storeError else None;
     config_UNIQUE_GMAIL_VALIDATION := false |}.

(** The users 7 and 8 as customers. *)
Definition twoCustomers : Req.t := request [] (Some [7; 8]) None "customer" [].

(** User 7 is invited already. *)
Definition sevenInvited : Env :=
  world noRoles (Resolved []) [invite (Some 7) None "customer" PENDING] false.

(** A Connect manager invites the users 1, 2 and the member 5 as project
    managers, and an e-mail. *)
Definition crowdedRequest : Req.t :=
  request ["Connect Manager"] (Some [1; 2; 5]) (Some ["a@x.com"]) "manager" [5].

(** Three e-mails for the customer role. *)
Definition threeEmailsRequest : Req.t :=
  request [] None (Some ["bob@X.com"; "jo.doe@gmail.com"; "new@x.com"]) "customer" [].

(** One unknown e-mail for the customer role. *)
Definition newcomerRequest : Req.t :=
  request [] None (Some ["New@X.com"]) "customer" [].

Definition newcomer : Invite.t := invite None (Some "new@x.com") "customer" PENDING.

(** A request without candidates. *)
Definition emptyRequest : Req.t := request [] None None "manager" [].

Definition mailConfig : MailConfig :=
  {| PROJECT_MEMBER_EMAIL_INVITE_CREATED := "connect.action.email.project.member.invite.created";
     connectUrl := "https://connect.example.com";
     accountsAppUrl := "https://accounts.example.com";
     inviteEmailSubject := "You are invited";
     inviteEmailSectionTitle := "Project invitation";
     EMAIL_INVITE_FROM_NAME := "Connect";
     EMAIL_INVITE_FROM_EMAIL := "noreply@connect.example.com";
     NODE_ENV := "Production";
     isSSO := fun _ => false |}.

(** Project 1 exists; no details are known of the caller. *)
Definition mailWorld : MailWorld :=
  {| findProject := fun p => if Z.eqb p 1 then Resolved (Some (Project.mk "Demo"))
                             else Resolved None;
     getMemberDetailsByUserIds := fun _ => Resolved (Some []) |}.

Definition newcomerEvent : MailEvent :=
  {| data_connectURL := "https://connect.example.com";
     data_accountsAppURL := "https://accounts.example.com";
     data_subject := "You are invited";
     project_name := "Demo";
     project_projectId := 1;
     section_title := "Project invitation";
     section_projectName := "Demo";
     section_projectId := 1;
     section_initiator := Initiator.mk 40051333 "Connect" "User";
     section_isSSO := false;
     recipients := [Some "new@x.com"];
     version := "v3";
     from_name := "Connect";
     from_email := "noreply@connect.example.com";
     categories := ["production:connect.action.email.project.member.invite.created"] |}.

End Scenario.

(** * Properties *)

(** ** The pattern handed to [new RegExp] stays inside the modelled fragment *)

Section Fragment.

Import RegExp.

Ltac each_char c := destruct c as [[] [] [] [] [] [] [] []].

Lemma localPartChar_plain (c : ascii) :
  isLocalPartChar c = true ->
  isStructureChar c = false /\ Ascii.eqb c "\" = false /\ Ascii.eqb c "?" = false.
Proof.
  each_char c; vm_compute; intros H; try discriminate H; repeat split.
Qed.

Lemma consTerm_supported (tm : Term) (r : Compiled) :
  r <> Unsupported -> consTerm tm r <> Unsupported.
Proof.
  destruct r; simpl; intros H; try discriminate; congruence.
Qed.

Lemma join_split_cons (c : ascii) (a dom : string) :
  (Js.join "\.?" (Js.split_chars (String c a)) ++ dom)%string
  = String c (afterChar a dom).
Proof.
  destruct a as [|d a]; reflexivity.
Qed.

Lemma span_forall (p : ascii -> bool) (s : string) :
  forallChars p (fst (span p s)) = true.
Proof.
  induction s as [|c s IH]; simpl; auto.
  destruct (p c) eqn:E; simpl; auto.
  destruct (span p s); simpl in *. now rewrite E.
Qed.

Lemma replace_drop_forall (p : ascii -> bool) (x : ascii) (s : string) :
  forallChars p s = true -> forallChars p (Js.replace x EmptyString s) = true.
Proof.
  induction s as [|c s IH]; simpl; auto.
  intros H. apply andb_true_iff in H as [Hc Hs].
  destruct (Ascii.eqb c x); simpl; auto.
  now rewrite Hc, IH.
Qed.

Lemma parse_term_supported (c : ascii) (rest : string) (lazyOk : bool) :
  isLocalPartChar c = true ->
  (forall atom, parse (AfterAtom atom) rest <> Unsupported) ->
  parse (AtTerm lazyOk) (String c rest) <> Unsupported.
Proof.
  intros Hc IH. destruct (localPartChar_plain c Hc) as (Hs & Hb & Hq).
  simpl. rewrite Hq, Hs, Hb, andb_false_r.
  destruct (isQuantifierChar c); [discriminate|].
  destruct (Ascii.eqb c "."); apply IH.
Qed.

Lemma parse_afterChar_supported (a dom : string) :
  forallChars isLocalPartChar a = true -> gmailDomain dom ->
  forall atom, parse (AfterAtom atom) (afterChar a dom) <> Unsupported.
Proof.
  induction a as [|c a IH]; intros Ha Hdom atom.
  - destruct Hdom; subst; cbn; discriminate.
  - simpl in Ha. apply andb_true_iff in Ha as [Hc Ha].
    unfold afterChar. rewrite join_split_cons.
    change ("\.?" ++ String c (afterChar a dom))%string
      with (String "\" (String "." (String "?" (String c (afterChar a dom))))).
    cbn [parse]. cbn [isQuantifierChar Ascii.eqb Bool.eqb orb andb isStructureChar
                     isLetter isDigit nat_of_ascii quantifierOf].
    apply consTerm_supported.
    change (consTerm (Lit ".", Optional)
              (parse (AtTerm true) (String c (afterChar a dom))) <> Unsupported).
    apply consTerm_supported, parse_term_supported; auto.
Qed.

Lemma new_patternSource_supported (group1 group2 : string) :
  forallChars isLocalPartChar group1 = true ->
  group2 = "@gmail.com" \/ group2 = "@googlemail.com" ->
  RegExp.new (patternSource group1 group2) <> Unsupported.
Proof.
  intros H1 H2. unfold patternSource, RegExp.new.
  assert (Hdom : gmailDomain (Js.replace "." "\." group2))
    by (destruct H2; subst; [left|right]; reflexivity).
  pose proof (replace_drop_forall _ "." _ H1) as Ha.
  destruct (Js.replace "." EmptyString group1) as [|c a].
  - destruct Hdom as [-> | ->]; cbn; discriminate.
  - rewrite join_split_cons. simpl in Ha. apply andb_true_iff in Ha as [Hc Ha].
    apply parse_term_supported; auto.
    now apply parse_afterChar_supported.
Qed.

Lemma gmailExec_groups (s group1 group2 : string) :
  gmailExec s = Some (group1, group2) ->
  forallChars isLocalPartChar group1 = true
  /\ (group2 = "@gmail.com" \/ group2 = "@googlemail.com").
Proof.
  unfold gmailExec. pose proof (span_forall isLocalPartChar s) as Hl.
  destruct (span isLocalPartChar s) as [l d]. simpl in Hl.
  destruct l as [|c l]; [discriminate|].
  destruct (String.eqb d "@gmail.com") eqn:E1; simpl.
  - intros [= <- <-]. apply String.eqb_eq in E1. auto.
  - destruct (String.eqb d "@googlemail.com") eqn:E2; [|discriminate].
    intros [= <- <-]. apply String.eqb_eq in E2. auto.
Qed.

(** The branch of [compareEmail] for a pattern outside the fragment is dead
    code of the model: whatever the first address, the source handed to
    [new RegExp] is parsed or rejected as JavaScript does. *)
Lemma compareEmail_pattern_in_fragment (email1 : option string) :
  forall group1 group2,
    gmailExec (Js._toLower email1) = Some (group1, group2) ->
    RegExp.new (Js.join "\.?" (Js.split_chars (Js.replace "." EmptyString group1))
                ++ Js.replace "." "\." group2)
    <> Unsupported.
Proof.
  intros g1 g2 H. apply gmailExec_groups in H as [H1 H2].
  now apply new_patternSource_supported.
Qed.

(** *** A first address without dots *)

Lemma plainChar_facts (c : ascii) :
  isPlainChar c = true ->
  isLocalPartChar c = true
  /\ isQuantifierChar c = false /\ isStructureChar c = false
  /\ Ascii.eqb c "\" = false /\ Ascii.eqb c "?" = false
  /\ Ascii.eqb c "." = false.
Proof.
  each_char c; vm_compute; intros H; try discriminate H; repeat split.
Qed.

Lemma forallChars_weaken (p q : ascii -> bool) (s : string) :
  (forall c, p c = true -> q c = true) ->
  forallChars p s = true -> forallChars q s = true.
Proof.
  intros Hpq. induction s as [|c s IH]; simpl; auto.
  intros H. apply andb_true_iff in H as [Hc Hs]. now rewrite Hpq, IH.
Qed.

Lemma replace_no_dot (s : string) :
  forallChars isPlainChar s = true -> Js.replace "." EmptyString s = s.
Proof.
  induction s as [|c s IH]; simpl; auto.
  intros H. apply andb_true_iff in H as [Hc Hs].
  destruct (plainChar_facts c Hc) as (_ & _ & _ & _ & _ & Hd).
  now rewrite Hd, IH.
Qed.

Lemma span_local (s dom : string) :
  forallChars isLocalPartChar s = true ->
  dom = "@gmail.com" \/ dom = "@googlemail.com" ->
  span isLocalPartChar (s ++ dom) = (s, dom).
Proof.
  intros Hs Hdom. induction s as [|c s IH]; simpl in *.
  - destruct Hdom; subst; reflexivity.
  - apply andb_true_iff in Hs as [Hc Hs]. now rewrite Hc, IH.
Qed.

(** What the parser makes of the rest of the pattern once a character of a
    dot-free address has been read. *)
Lemma parse_afterChar_plain (s dom : string) :
  forallChars isPlainChar s = true ->
  dom = "@gmail.com" \/ dom = "@googlemail.com" ->
  forall atom,
    parse (AfterAtom atom) (afterChar s (Js.replace "." "\." dom))
    = Pattern ((atom, Once)
               :: match s with
                  | EmptyString => []
                  | String _ _ => (Lit ".", Optional) :: interleaved s
                  end ++ literal dom).
Proof.
  intros Hs Hdom. induction s as [|c s IH]; intros atom.
  - destruct Hdom; subst; reflexivity.
  - simpl in Hs. apply andb_true_iff in Hs as [Hc Hs].
    destruct (plainChar_facts c Hc) as (_ & Hq & Hst & Hb & Hqm & Hd).
    unfold afterChar. rewrite join_split_cons.
    change ("\.?" ++ String c (afterChar s (Js.replace "." "\." dom)))%string
      with (String "\" (String "." (String "?"
              (String c (afterChar s (Js.replace "." "\." dom)))))).
    cbn [parse]. cbn [isQuantifierChar Ascii.eqb Bool.eqb orb andb isStructureChar
                     isLetter isDigit nat_of_ascii quantifierOf].
    change (consTerm (atom, Once)
              (consTerm (Lit ".", Optional)
                 (parse (AtTerm true)
                    (String c (afterChar s (Js.replace "." "\." dom)))))
            = Pattern ((atom, Once) :: ((Lit ".", Optional) :: interleaved (String c s))
                                        ++ literal dom)).
    cbn [parse]. rewrite Hqm, Hq, Hst, Hb, Hd. simpl andb. cbv iota.
    rewrite (IH Hs (Lit c)). simpl. destruct s; reflexivity.
Qed.

Lemma new_patternSource_plain (c : ascii) (s dom : string) :
  forallChars isPlainChar (String c s) = true ->
  dom = "@gmail.com" \/ dom = "@googlemail.com" ->
  RegExp.new (patternSource (String c s) dom)
  = Pattern (interleaved (String c s) ++ literal dom).
Proof.
  intros Hs Hdom. unfold patternSource. rewrite (replace_no_dot _ Hs).
  rewrite join_split_cons. simpl in Hs. apply andb_true_iff in Hs as [Hc Hs].
  destruct (plainChar_facts c Hc) as (_ & Hq & Hst & Hb & Hqm & Hd).
  unfold RegExp.new. cbn [parse]. rewrite Hq, Hst, Hb, Hd. simpl andb. cbv iota.
  rewrite (parse_afterChar_plain _ Hs Hdom). simpl. destruct s; reflexivity.
Qed.

Lemma matchesAt_literal (s rest : string) :
  matchesAt (literal s) (s ++ rest) = true.
Proof.
  induction s as [|c s IH]; simpl; auto.
  now rewrite Ascii.eqb_refl.
Qed.

Lemma matchesAt_interleaved (s s' : string) :
  Dotted s s' ->
  forall (k : RegExp.t) (rest : string),
    matchesAt k rest = true ->
    matchesAt (interleaved s ++ k) (s' ++ rest) = true.
Proof.
  induction 1 as [c|c s s' D IH|c s s' D IH]; intros k rest Hk.
  - simpl. now rewrite Ascii.eqb_refl.
  - specialize (IH k rest Hk). destruct s as [|d s]; [inversion D|].
    change (interleaved (String c (String d s)) ++ k)
      with ((Lit c, Once) :: (Lit ".", Optional) :: (interleaved (String d s) ++ k)).
    change (String c s' ++ rest)%string with (String c (s' ++ rest)).
    cbn [matchesAt atomMatches]. rewrite Ascii.eqb_refl. cbn [andb].
    rewrite IH. apply orb_true_r.
  - specialize (IH k rest Hk). destruct s as [|d s]; [inversion D|].
    change (interleaved (String c (String d s)) ++ k)
      with ((Lit c, Once) :: (Lit ".", Optional) :: (interleaved (String d s) ++ k)).
    change (String c (String "." s') ++ rest)%string
      with (String c (String "." (s' ++ rest))).
    cbn [matchesAt atomMatches]. rewrite Ascii.eqb_refl. cbn [andb].
    change (Ascii.eqb "." ".") with true. cbn [andb]. now rewrite IH.
Qed.

Lemma test_matchesAt (r : RegExp.t) (s : string) :
  matchesAt r s = true -> test r s = true.
Proof. intros H. destruct s; simpl; now rewrite H. Qed.

(** X5: when the first address has no dot (and no [+]) in its local part,
    every address obtained by inserting single dots between the characters of
    that local part (and changing case) compares equal to it. *)
Lemma compareEmail_dot_free_first (a b local local' dom : string) :
  Js.toLowerCase a = (local ++ dom)%string ->
  forallChars isPlainChar local = true ->
  dom = "@gmail.com" \/ dom = "@googlemail.com" ->
  Dotted local local' ->
  Js.toLowerCase b = (local' ++ dom)%string ->
  compareEmail (Some a) (Some b) gmailOn = Return true.
Proof.
  intros Ha Hl Hdom D Hb. unfold compareEmail. simpl. rewrite Ha, Hb.
  assert (Hloc : forallChars isLocalPartChar local = true).
  { apply forallChars_weaken with isPlainChar; auto.
    intros c Hc. now apply plainChar_facts. }
  unfold gmailExec. rewrite (span_local _ Hloc Hdom).
  destruct local as [|c s]; [inversion D|].
  assert (E : (String.eqb dom "@gmail.com" || String.eqb dom "@googlemail.com")%bool
              = true) by (destruct Hdom; subst; reflexivity).
  rewrite E. fold (patternSource (String c s) dom).
  rewrite (@new_patternSource_plain c s dom Hl Hdom). f_equal.
  apply test_matchesAt.
  replace (local' ++ dom)%string with (local' ++ (dom ++ EmptyString))%string.
  - apply matchesAt_interleaved; auto. apply matchesAt_literal.
  - f_equal. clear. induction dom; simpl; congruence.
Qed.

End Fragment.

(** ** [compareEmail] *)

Lemma compareEmail_off (email1 email2 : option string) :
  compareEmail email1 email2 gmailOff
  = Return (String.eqb (Js._toLower email1) (Js._toLower email2)).
Proof. reflexivity. Qed.

(** With the flag off two addresses compare equal only when they are the
    same up to case. *)
Lemma compareEmail_off_iff (a b : string) :
  compareEmail (Some a) (Some b) gmailOff = Return true
  <-> Js.toLowerCase a = Js.toLowerCase b.
Proof.
  rewrite compareEmail_off. simpl. split.
  - intros [= H]. now apply String.eqb_eq.
  - intros H. f_equal. now apply String.eqb_eq.
Qed.

Lemma lowerChar_idempotent (c : ascii) :
  Js.lowerChar (Js.lowerChar c) = Js.lowerChar c.
Proof.
  destruct c as [[] [] [] [] [] [] [] []]; reflexivity.
Qed.

Lemma toLowerCase_idempotent (s : string) :
  Js.toLowerCase (Js.toLowerCase s) = Js.toLowerCase s.
Proof.
  induction s as [|c s IH]; simpl; [reflexivity|].
  now rewrite lowerChar_idempotent, IH.
Qed.

(** With the flag off an address compares equal to its lower-case form. *)
Lemma compareEmail_off_lower (e : string) :
  compareEmail (Some (Js.toLowerCase e)) (Some e) gmailOff = Return true.
Proof.
  rewrite compareEmail_off. simpl.
  now rewrite toLowerCase_idempotent, String.eqb_refl.
Qed.

Lemma compareEmail_off_returns (email1 email2 : option string) :
  returns (compareEmail email1 email2 gmailOff).
Proof. rewrite compareEmail_off. now eexists. Qed.

(** One dot in the first address is tolerated. *)
Example compareEmail_one_dot :
  compareEmail (Some "jo.e@gmail.com") (Some "j.oe@googlemail.com") gmailOn
  = Return false
  /\ compareEmail (Some "jo.e@gmail.com") (Some "J.O.E@gmail.com") gmailOn
     = Return true.
Proof. split; reflexivity. Qed.

(** A [+] in the first address makes [new RegExp] throw. *)
Example compareEmail_plus_throws :
  compareEmail (Some "john+work@gmail.com") (Some "john+work@gmail.com") gmailOn
  = Throw RegExpSyntaxError.
Proof. reflexivity. Qed.

(** C2 (the code at a failing input): with alias canonicalisation enabled,
    two gmail addresses that differ only by the dots of the local part are
    not recognised as the same address when the first one has two dots:
    [replace] removes the first dot only, the second one stays in the
    pattern as a wildcard that must consume a character. *)
Theorem compareEmail_two_dots :
  Js.replace "." EmptyString "j.o.e" = "jo.e"
  /\ compareEmail (Some "j.o.e@gmail.com") (Some "joe@gmail.com") gmailOn
     = Return false
  /\ compareEmail (Some "joe@gmail.com") (Some "j.o.e@gmail.com") gmailOn
     = Return true.
Proof. repeat split. Qed.

(** C10: with alias canonicalisation enabled [compareEmail] is not
    symmetric.  The alias rule is driven by the first argument alone: a gmail
    address in first position is turned into an unanchored pattern, while an
    address of another domain in first position is compared literally. *)
Theorem compareEmail_not_symmetric :
  exists a b : string,
    compareEmail (Some a) (Some b) gmailOn = Return true
    /\ compareEmail (Some b) (Some a) gmailOn = Return false
    /\ gmailExec (Js.toLowerCase a) <> None
    /\ gmailExec (Js.toLowerCase b) = None.
Proof.
  exists "jo.hn@gmail.com", "john@gmail.com.example.org".
  repeat split. discriminate.
Qed.

(** ** The alias rule of [compareEmail] *)

Section Alias.

Import RegExp.

Ltac by_char c := destruct c as [[] [] [] [] [] [] [] []].

Lemma localChar_not_plus (c : ascii) :
  isLocalPartChar c = true -> Ascii.eqb c "+" = false ->
  isQuantifierChar c = false /\ isStructureChar c = false
  /\ Ascii.eqb c "\" = false /\ Ascii.eqb c "?" = false.
Proof.
  by_char c; vm_compute; intros H H'; try discriminate H; try discriminate H';
    repeat split.
Qed.

Lemma consTerm_SyntaxError (tm : Term) : consTerm tm SyntaxError = SyntaxError.
Proof. reflexivity. Qed.

(** The parser on the rest of the pattern, for any address: a [+] anywhere
    is a syntax error, otherwise every character gives its atom. *)
Lemma parse_afterChar_address (s dom : string) :
  forallChars isLocalPartChar s = true ->
  dom = "@gmail.com" \/ dom = "@googlemail.com" ->
  forall atom,
    parse (AfterAtom atom) (afterChar s (Js.replace "." "\." dom))
    = if containsChar "+" s then SyntaxError
      else Pattern ((atom, Once)
                    :: match s with
                       | EmptyString => []
                       | String _ _ => (Lit ".", Optional) :: addressTerms s
                       end ++ literal dom).
Proof.
  intros Hs Hdom. induction s as [|c s IH]; intros atom.
  - destruct Hdom; subst; reflexivity.
  - simpl in Hs. apply andb_true_iff in Hs as [Hc Hs].
    unfold afterChar. rewrite join_split_cons.
    change ("\.?" ++ String c (afterChar s (Js.replace "." "\." dom)))%string
      with (String "\" (String "." (String "?"
              (String c (afterChar s (Js.replace "." "\." dom)))))).
    cbn [parse]. cbn [isQuantifierChar Ascii.eqb Bool.eqb orb andb isStructureChar
                     isLetter isDigit nat_of_ascii quantifierOf].
    change (consTerm (atom, Once)
              (consTerm (Lit ".", Optional)
                 (parse (AtTerm true)
                    (String c (afterChar s (Js.replace "." "\." dom)))))
            = if containsChar "+" (String c s) then SyntaxError
              else Pattern ((atom, Once)
                            :: ((Lit ".", Optional) :: addressTerms (String c s))
                               ++ literal dom)).
    cbn [containsChar]. destruct (Ascii.eqb c "+") eqn:Ep.
    + apply Ascii.eqb_eq in Ep. subst c. reflexivity.
    + destruct (localChar_not_plus c Hc Ep) as (Hq & Hst & Hb & Hqm).
      cbn [parse orb]. rewrite Hqm, Hq, Hst, Hb. simpl andb. cbv iota.
      assert (E : (if Ascii.eqb c "."
                   then parse (AfterAtom AnyChar) (afterChar s (Js.replace "." "\." dom))
                   else parse (AfterAtom (Lit c)) (afterChar s (Js.replace "." "\." dom)))
                  = parse (AfterAtom (atomOf c)) (afterChar s (Js.replace "." "\." dom)))
        by (unfold atomOf; now destruct (Ascii.eqb c ".")).
      rewrite E, (IH Hs (atomOf c)).
      destruct (containsChar "+" s); [reflexivity|].
      simpl. destruct s; reflexivity.
Qed.

(** What [new RegExp] makes of the pattern built from an address. *)
Lemma new_pattern_address (address dom : string) :
  forallChars isLocalPartChar address = true ->
  dom = "@gmail.com" \/ dom = "@googlemail.com" ->
  RegExp.new (Js.join "\.?" (Js.split_chars address) ++ Js.replace "." "\." dom)
  = if containsChar "+" address then SyntaxError
    else Pattern (addressTerms address ++ literal dom).
Proof.
  intros Hs Hdom. destruct address as [|c s].
  - destruct Hdom; subst; reflexivity.
  - rewrite join_split_cons. simpl in Hs. apply andb_true_iff in Hs as [Hc Hs].
    unfold RegExp.new. cbn [containsChar]. destruct (Ascii.eqb c "+") eqn:Ep.
    + apply Ascii.eqb_eq in Ep. subst c. reflexivity.
    + destruct (localChar_not_plus c Hc Ep) as (Hq & Hst & Hb & Hqm).
      cbn [parse orb]. rewrite Hq, Hst, Hb. simpl andb. cbv iota.
      assert (E : (if Ascii.eqb c "."
                   then parse (AfterAtom AnyChar) (afterChar s (Js.replace "." "\." dom))
                   else parse (AfterAtom (Lit c)) (afterChar s (Js.replace "." "\." dom)))
                  = parse (AfterAtom (atomOf c)) (afterChar s (Js.replace "." "\." dom)))
        by (unfold atomOf; now destruct (Ascii.eqb c ".")).
      rewrite E, (parse_afterChar_address _ Hs Hdom).
      destruct (containsChar "+" s); [reflexivity|].
      simpl. destruct s; reflexivity.
Qed.

Lemma containsChar_replace_dot (s : string) :
  containsChar "+" (Js.replace "." EmptyString s) = containsChar "+" s.
Proof.
  induction s as [|c s IH]; simpl; auto.
  destruct (Ascii.eqb c ".") eqn:E; simpl.
  - apply Ascii.eqb_eq in E. subst c. reflexivity.
  - now rewrite IH.
Qed.

(** [compareEmail] with the alias rule on, for a first address of gmail
    shape: it throws when the local part has a [+], and otherwise tests the
    pattern made of the atoms of the address. *)
Lemma compareEmail_gmail (email1 email2 : option string) (group1 group2 : string) :
  gmailExec (Js._toLower email1) = Some (group1, group2) ->
  compareEmail email1 email2 gmailOn
  = if containsChar "+" group1 then Throw RegExpSyntaxError
    else Return (test (addressTerms (Js.replace "." EmptyString group1)
                       ++ literal group2)
                      (Js._toLower email2)).
Proof.
  intros H. unfold compareEmail. simpl. rewrite H.
  apply gmailExec_groups in H as [H1 H2].
  rewrite (new_pattern_address _ (replace_drop_forall _ "." _ H1) H2).
  rewrite containsChar_replace_dot. now destruct (containsChar "+" group1).
Qed.

(** X1: with alias canonicalisation on, [compareEmail] throws exactly when
    the first address, in lower case, is a gmail or googlemail address whose
    local part contains a [+]; the second address plays no part. *)
Theorem compareEmail_throws_iff (email1 email2 : option string) :
  throws (compareEmail email1 email2 gmailOn)
  <-> exists group1 group2,
        gmailExec (Js._toLower email1) = Some (group1, group2)
        /\ containsChar "+" group1 = true.
Proof.
  destruct (gmailExec (Js._toLower email1)) as [[g1 g2]|] eqn:G.
  - rewrite (compareEmail_gmail email1 email2 G). split.
    + intros [e H]. exists g1, g2. split; auto.
      destruct (containsChar "+" g1); [reflexivity|discriminate].
    + intros (g1' & g2' & [= <- <-] & Hp). rewrite Hp. now eexists.
  - split.
    + intros [e H]. unfold compareEmail in H. simpl in H. rewrite G in H.
      discriminate.
    + intros (g1 & g2 & [=] & _).
Qed.

(** With the flag off nothing is ever thrown. *)
Lemma compareEmail_off_never_throws (email1 email2 : option string) :
  ~ throws (compareEmail email1 email2 gmailOff).
Proof. intros [e H]. rewrite compareEmail_off in H. discriminate. Qed.

(** *** Matching an address against its own pattern *)

Lemma atomOf_matches (c : ascii) : atomMatches (atomOf c) c = true.
Proof.
  unfold atomOf. destruct (Ascii.eqb c ".") eqn:E; simpl.
  - apply Ascii.eqb_eq in E. now subst c.
  - apply Ascii.eqb_refl.
Qed.

Lemma matchesAt_literal_self (s : string) : matchesAt (literal s) s = true.
Proof.
  induction s as [|c s IH]; simpl; auto. now rewrite Ascii.eqb_refl.
Qed.

(** The pattern of [s] matches [s] itself: every optional dot is skipped. *)
Lemma matchesAt_address_self (s : string) (k : RegExp.t) (rest : string) :
  matchesAt k rest = true ->
  matchesAt (addressTerms s ++ k) (s ++ rest) = true.
Proof.
  intros Hk. induction s as [|c s IH]; [exact Hk|].
  destruct s as [|d s].
  - simpl. now rewrite atomOf_matches.
  - change (addressTerms (String c (String d s)) ++ k)
      with ((atomOf c, Once) :: (Lit ".", Optional)
            :: (addressTerms (String d s) ++ k)).
    change (String c (String d s) ++ rest)%string
      with (String c (String d s ++ rest)).
    cbn [matchesAt]. rewrite atomOf_matches. cbn [andb].
    rewrite IH. apply orb_true_r.
Qed.

(** The pattern of [s] without its first dot matches [s], when [s] starts
    with another character and does not end with a dot. *)
Lemma matchesAt_address_first_dot (s : string) (k : RegExp.t) (rest : string) :
  matchesAt k rest = true ->
  match s with
  | EmptyString => False
  | String c _ => Ascii.eqb c "." = false
  end ->
  endsWithDot s = false ->
  matchesAt (addressTerms (Js.replace "." EmptyString s) ++ k) (s ++ rest) = true.
Proof.
  intros Hk. induction s as [|c s IH]; [intros []|].
  intros Hc He. cbn [Js.replace]. rewrite Hc.
  destruct s as [|d s].
  - simpl. now rewrite atomOf_matches.
  - destruct (Ascii.eqb d ".") eqn:Hd.
    + apply Ascii.eqb_eq in Hd. subst d.
      destruct s as [|e s]; [discriminate He|].
      change (Js.replace "." EmptyString (String "." (String e s)))
        with (String e s).
      change (addressTerms (String c (String e s)) ++ k)
        with ((atomOf c, Once) :: (Lit ".", Optional)
              :: (addressTerms (String e s) ++ k)).
      change (String c (String "." (String e s)) ++ rest)%string
        with (String c (String "." (String e s ++ rest))).
      cbn [matchesAt]. rewrite atomOf_matches. cbn [andb atomMatches].
      change (Ascii.eqb "." ".") with true. cbn [andb].
      now rewrite matchesAt_address_self.
    + specialize (IH eq_refl He). cbn [Js.replace] in IH |- *. rewrite Hd in IH |- *.
      change (addressTerms (String c (String d (Js.replace "." EmptyString s))) ++ k)
        with ((atomOf c, Once) :: (Lit ".", Optional)
              :: (addressTerms (String d (Js.replace "." EmptyString s)) ++ k)).
      change (String c (String d s) ++ rest)%string
        with (String c (String d s ++ rest)).
      cbn [matchesAt]. rewrite atomOf_matches. cbn [andb].
      rewrite IH. apply orb_true_r.
Qed.

Lemma gmailExec_local (local dom : string) :
  forallChars isLocalPartChar local = true ->
  local <> EmptyString ->
  dom = "@gmail.com" \/ dom = "@googlemail.com" ->
  gmailExec (local ++ dom) = Some (local, dom).
Proof.
  intros Hl Hne Hdom. unfold gmailExec. rewrite (span_local _ Hl Hdom).
  destruct local; [contradiction|].
  destruct Hdom; subst; reflexivity.
Qed.

(** X2: with alias canonicalisation on, a gmail or googlemail address whose
    local part has no [+] and does not end with a dot compares equal to
    itself, whatever the case of either copy. *)
Theorem compareEmail_on_reflexive (a b local dom : string) :
  Js.toLowerCase a = (local ++ dom)%string ->
  Js.toLowerCase b = Js.toLowerCase a ->
  forallChars isLocalPartChar local = true ->
  local <> EmptyString ->
  containsChar "+" local = false ->
  endsWithDot local = false ->
  dom = "@gmail.com" \/ dom = "@googlemail.com" ->
  compareEmail (Some a) (Some b) gmailOn = Return true.
Proof.
  intros Ha Hb Hl Hne Hp He Hdom.
  rewrite (@compareEmail_gmail (Some a) (Some b) local dom)
    by (simpl; rewrite Ha; now apply gmailExec_local).
  rewrite Hp. f_equal. simpl. rewrite Hb, Ha.
  destruct local as [|c s]; [contradiction|].
  destruct (Ascii.eqb c ".") eqn:Hc.
  - apply Ascii.eqb_eq in Hc. subst c.
    change (Js.replace "." EmptyString (String "." s)) with s.
    change (String "." s ++ dom)%string with (String "." (s ++ dom)).
    cbn [test]. rewrite (test_matchesAt (addressTerms s ++ literal dom) (s ++ dom)).
    + apply orb_true_r.
    + apply matchesAt_address_self, matchesAt_literal_self.
  - apply test_matchesAt, matchesAt_address_first_dot; auto.
    apply matchesAt_literal_self.
Qed.

(** *** The test is not anchored *)

Lemma toLowerCase_app (x y : string) :
  Js.toLowerCase (x ++ y) = (Js.toLowerCase x ++ Js.toLowerCase y)%string.
Proof.
  induction x as [|c x IH]; simpl; [reflexivity|]. now rewrite IH.
Qed.

Lemma matchesAt_app (r : RegExp.t) (post : string) :
  forall s, matchesAt r s = true -> matchesAt r (s ++ post) = true.
Proof.
  induction r as [|[a q] r IH]; [reflexivity|].
  set (many := fix many (s : string) : bool :=
                 (matchesAt r s || match s with
                                   | EmptyString => false
                                   | String c s' => atomMatches a c && many s'
                                   end)%bool).
  assert (Heq : forall s,
             many s = (matchesAt r s || match s with
                                        | EmptyString => false
                                        | String c s' => atomMatches a c && many s'
                                        end)%bool)
    by (intros [|c s]; reflexivity).
  assert (Hmany : forall s, many s = true -> many (s ++ post)%string = true).
  { induction s as [|c s IHs]; intros H; rewrite Heq in H; rewrite Heq.
    - rewrite orb_false_r in H. apply IH in H.
      change (EmptyString ++ post)%string with post in *. now rewrite H.
    - change (String c s ++ post)%string with (String c (s ++ post)) in *.
      apply orb_true_iff in H as [H|H].
      + apply IH in H.
        change (String c s ++ post)%string with (String c (s ++ post)) in H.
        now rewrite H.
      + apply andb_true_iff in H as [Hc H]. cbv beta iota.
        rewrite Hc, (IHs H). apply orb_true_r. }
  intros s. destruct q; cbn [matchesAt].
  - destruct s as [|c s]; [discriminate|].
    change (String c s ++ post)%string with (String c (s ++ post)).
    intros H. apply andb_true_iff in H as [Hc H]. now rewrite Hc, IH.
  - intros H. apply orb_true_iff in H as [H|H].
    + destruct s as [|c s]; [discriminate|].
      change (String c s ++ post)%string with (String c (s ++ post)).
      apply andb_true_iff in H as [Hc H]. now rewrite Hc, IH.
    + rewrite (IH _ H). apply orb_true_r.
  - apply Hmany.
  - destruct s as [|c s]; [discriminate|].
    change (String c s ++ post)%string with (String c (s ++ post)).
    intros H. apply andb_true_iff in H as [Hc H]. rewrite Hc.
    now apply Hmany.
Qed.

Lemma test_app_r (r : RegExp.t) (s post : string) :
  test r s = true -> test r (s ++ post) = true.
Proof.
  induction s as [|c s IH]; simpl; intros H.
  - rewrite orb_false_r in H. apply matchesAt_app with (post := post) in H.
    simpl in H. destruct post; simpl; now rewrite H.
  - apply orb_true_iff in H as [H|H].
    + apply matchesAt_app with (post := post) in H. simpl in H. now rewrite H.
    + rewrite (IH H). apply orb_true_r.
Qed.

Lemma test_app_l (r : RegExp.t) (pre s : string) :
  test r s = true -> test r (pre ++ s) = true.
Proof.
  intros H. induction pre as [|c pre IH]; simpl; [exact H|].
  rewrite IH. apply orb_true_r.
Qed.

(** X3: with alias canonicalisation on and a first address of gmail shape,
    the comparison is a search: whatever compares equal to the first address
    still does with any text put before and after it. *)
Theorem compareEmail_unanchored (a b pre post : string) :
  gmailExec (Js.toLowerCase a) <> None ->
  compareEmail (Some a) (Some b) gmailOn = Return true ->
  compareEmail (Some a) (Some (pre ++ b ++ post)%string) gmailOn = Return true.
Proof.
  intros Hg H.
  destruct (gmailExec (Js.toLowerCase a)) as [[g1 g2]|] eqn:G; [|contradiction].
  rewrite (@compareEmail_gmail (Some a) (Some b) g1 g2 G) in H.
  rewrite (@compareEmail_gmail (Some a) (Some (pre ++ b ++ post)%string) g1 g2 G).
  destruct (containsChar "+" g1); [discriminate|].
  injection H as H. f_equal. simpl in *.
  rewrite !toLowerCase_app. now apply test_app_l, test_app_r.
Qed.

(** X4: [compareEmail] is insensitive to the case of both addresses, with
    either setting of the flag. *)
Theorem compareEmail_case_insensitive (a b : string) (options : Options) :
  compareEmail (Some a) (Some b) options
  = compareEmail (Some (Js.toLowerCase a)) (Some (Js.toLowerCase b)) options.
Proof.
  unfold compareEmail. simpl. now rewrite !toLowerCase_idempotent.
Qed.

End Alias.

(** ** The handler *)

Section Handler.

Context {K : Constants}.
Variable env : Env.

Implicit Types (req : Req.t) (invite : Param.t) (invites : list Invite.t).

Lemma Promise_all_create (datas values : list Invite.t) :
  Promise_all (map (create env) datas) = Resolved values -> values = datas.
Proof.
  revert values. induction datas as [|d datas IH]; simpl; intros values H.
  - now injection H as <-.
  - unfold create in H at 1. destruct (createRejection env d); [discriminate|].
    destruct (Promise_all (map (create env) datas)); [|discriminate].
    injection H as <-. f_equal. now apply IH.
Qed.

Lemma Promise_all_create_accepted (datas : list Invite.t) :
  (forall d, In d datas -> createRejection env d = None) ->
  Promise_all (map (create env) datas) = Resolved datas.
Proof.
  induction datas as [|d datas IH]; simpl; intros H; auto.
  unfold create at 1. rewrite (H d) by auto. rewrite IH; auto.
Qed.

(** The request reaches line 250 with its role unchanged. *)
Lemma check_role req invite failed0 effects :
  check env req = (Proceed invite failed0, effects) ->
  Param.role invite = Param.role (Req.body_param req).
Proof.
  unfold check.
  destruct (negb (isSome _) && negb (isSome _))%bool; [discriminate|].
  destruct (negb (hasRoles _ _ _) && _)%bool; [discriminate|].
  destruct (match Param.emails _ with Some _ => _ | None => _ end) as [f e].
  destruct (match map _ _ with [] => _ | _ :: _ => _ end); [|discriminate].
  now intros [= <- _ _].
Qed.

(** The handler answers with [json] only through [respond], on what
    [buildCreateInvitePromises] produced. *)
Lemma handler_json req status body effects :
  handler env req = (Json status body, effects) ->
  exists invite failed0 effects0 invites,
    check env req = (Proceed invite failed0, effects0)
    /\ getPendingInvitesForProject env (Req.params_projectId req) = Resolved invites
    /\ let built := buildCreateInvitePromises env req invite invites
                      (inviteData env req invite) failed0 in
       Promise_all (map (create env) (fst (fst built))) = Resolved (fst (fst built))
       /\ Json status body = respond (fst (fst built)) (snd (fst built)).
Proof.
  unfold handler. destruct (check env req) as [[err|invite failed0] effects0];
    [discriminate|].
  destruct (getPendingInvitesForProject env _) as [invites|]; [|discriminate].
  destruct (buildCreateInvitePromises _ _ _ _ _ _) as [[datas failed1] built] eqn:B.
  destruct (Promise_all _) as [values|] eqn:P; [|discriminate].
  intros [= H _]. exists invite, failed0, effects0, invites.
  rewrite B. simpl. apply Promise_all_create in P as E. subst values.
  repeat split; auto.
Qed.

(** C3 (as amended): a caller without a manager-tier role who asks for a
    role other than the customer role is always answered [next(err)], and no
    collaborator has been called: nothing is looked up, created, emitted or
    published.  The error is the 403 of the gate when the request carries a
    list of user ids or of e-mails; a request that carries neither is stopped
    one step earlier, by the 400 of lines 191-195. *)
Theorem request_gate_forbidden req :
  Param.role (Req.body_param req) <> CUSTOMER ->
  hasRoles env (Req.authUser req) MANAGER_ROLES = false ->
  handler env req
  = (Next (if (isSome (Param.userIds (Req.body_param req))
               || isSome (Param.emails (Req.body_param req)))%bool
           then {| err_status := Some 403;
                   err_message := ("You are not allowed to invite user as "
                                   ++ Param.role (Req.body_param req))%string;
                   err_statusText := None |}
           else {| err_status := Some 400;
                   err_message := "Either userIds or emails are required";
                   err_statusText := None |}),
     []).
Proof.
  intros Hr Hm. unfold handler, check.
  apply String.eqb_neq in Hr.
  destruct (Param.userIds _), (Param.emails _); simpl;
    try rewrite Hm, Hr; reflexivity.
Qed.

Lemma Promise_all_create_resolved (datas values : list Invite.t) (d : Invite.t) :
  Promise_all (map (create env) datas) = Resolved values ->
  In d datas -> createRejection env d = None.
Proof.
  revert values. induction datas as [|a datas IH]; simpl; intros values H Hd.
  - destruct Hd.
  - unfold create in H at 1. destruct (createRejection env a) eqn:E; [discriminate|].
    destruct (Promise_all (map (create env) datas)) as [l|]; [|discriminate].
    destruct Hd as [<-|Hd]; [exact E|]. now apply IH with l.
Qed.

(** C9: the handler answers with a body exactly when the checks let the
    request through, the pending invitations are read and the store accepts
    every new invite; the body and the status are then decided by the
    failures accumulated by the checks and by [buildCreateInvitePromises]:
    none, and the answer is 201 with the success list only; at least one, and
    it is 403 with the success list and the failed list. *)
Theorem response_aggregation req status body :
  fst (handler env req) = Json status body
  <-> exists invite failed0 effects0 invites,
        check env req = (Proceed invite failed0, effects0)
        /\ getPendingInvitesForProject env (Req.params_projectId req) = Resolved invites
        /\ let built := buildCreateInvitePromises env req invite invites
                          (inviteData env req invite) failed0 in
           let accumulated := snd (fst built) in
           (forall d, In d (fst (fst built)) -> createRejection env d = None)
           /\ success body = fst (fst built)
           /\ ((accumulated = [] /\ status = 201 /\ failed body = None)
               \/ (accumulated <> [] /\ status = 403
                   /\ failed body = Some accumulated)).
Proof.
  split.
  - destruct (handler env req) as [outcome effects] eqn:H. simpl. intros ->.
    apply handler_json in H as (invite & failed0 & effects0 & invites & Hc & Hp & Ha & Hr).
    exists invite, failed0, effects0, invites. cbv zeta in *.
    split; [exact Hc|]. split; [exact Hp|]. split.
    { intros d. now apply Promise_all_create_resolved with (1 := Ha). }
    split.
    + destruct (snd (fst _)); injection Hr as -> ->; reflexivity.
    + destruct (snd (fst _)) eqn:E; injection Hr as -> ->; [left|right]; repeat split.
      discriminate.
  - intros (invite & failed0 & effects0 & invites & Hc & Hp & Ha & Hs & Hf).
    cbv zeta in *. unfold handler. rewrite Hc, Hp.
    destruct (buildCreateInvitePromises _ _ _ _ _ _) as [[datas failed1] built].
    simpl in *. rewrite (Promise_all_create_accepted _ Ha). simpl.
    destruct body as [values failed2]. simpl in *. subst values.
    destruct Hf as [(-> & -> & ->)|(Hne & -> & ->)]; [reflexivity|].
    destruct failed1; [now destruct Hne|reflexivity].
Qed.

Lemma In_map_Create (d : Invite.t) (l : list Invite.t) :
  In (Create d) (map Create l) <-> In d l.
Proof.
  rewrite in_map_iff. split.
  - now intros (x & [= ->] & H).
  - intros H. now exists d.
Qed.

(** [create] is called exactly on the data returned. *)
Lemma build_creates req invite invites data failed0 (d : Invite.t) :
  let built := buildCreateInvitePromises env req invite invites data failed0 in
  In (Create d) (snd built) <-> In d (fst (fst built)).
Proof.
  unfold buildCreateInvitePromises.
  set (ps := match Param.userIds invite with Some _ => _ | None => _ end).
  assert (G : forall pushed emails,
             In (Create d) (map Create ps ++ LookupUserEmails emails :: map Create pushed)
             <-> In d (ps ++ pushed)).
  { intros pushed emails. rewrite !in_app_iff. simpl. rewrite !In_map_Create.
    intuition discriminate. }
  destruct (Param.emails invite) as [emails|]; simpl; [|apply In_map_Create].
  destruct (lookupUserEmails env emails) as [users|]; [|apply (G [])].
  destruct (filterC _ emails); [|apply (G [])].
  destruct (_removeC _ _); apply G.
Qed.

(** Every invite created is the template with an identity filled in. *)
Lemma build_from_template req invite invites data failed0 (d : Invite.t) :
  In d (fst (fst (buildCreateInvitePromises env req invite invites data failed0))) ->
  exists userId email, d = withIdentity data userId email.
Proof.
  unfold buildCreateInvitePromises.
  set (ps := match Param.userIds invite with Some _ => _ | None => _ end).
  assert (Hps : In d ps -> exists userId email, d = withIdentity data userId email).
  { subst ps. destruct (Param.userIds invite); simpl; [|tauto].
    rewrite in_map_iff. intros (u & <- & _). now eexists _, _. }
  assert (Hex : forall users, In d (map (byExistentUser data) users) ->
                exists userId email, d = withIdentity data userId email).
  { intros users. rewrite in_map_iff. intros (u & <- & _). now eexists _, _. }
  assert (Hem : forall es, In d (map (byEmail data) es) ->
                exists userId email, d = withIdentity data userId email).
  { intros es. rewrite in_map_iff. intros (u & <- & _). now eexists _, _. }
  destruct (Param.emails invite) as [emails|]; simpl; auto.
  destruct (lookupUserEmails env emails) as [users|]; simpl;
    [|rewrite app_nil_r; auto].
  destruct (filterC _ emails); simpl; [|rewrite app_nil_r; auto].
  destruct (_removeC _ _); simpl; rewrite !in_app_iff; intuition eauto.
Qed.

Lemma check_no_create req (d : Invite.t) : ~ In (Create d) (snd (check env req)).
Proof.
  unfold check.
  destruct (negb (isSome _) && negb (isSome _))%bool; [simpl; tauto|].
  destruct (negb (hasRoles _ _ _) && _)%bool; [simpl; tauto|].
  destruct (match Param.emails _ with Some _ => _ | None => _ end) as [f e].
  destruct (match map _ _ with [] => _ | _ :: _ => _ end); simpl;
    rewrite in_map_iff; now intros (x & [=] & _).
Qed.

Lemma announce_no_create (projectId : Z) (values : list Invite.t) (d : Invite.t) :
  ~ In (Create d) (flat_map (announce projectId) values).
Proof.
  rewrite in_flat_map. intros (v & _ & H). unfold announce in H.
  destruct (_ && _ && _)%bool; simpl in H; intuition discriminate.
Qed.

(** The invites the handler creates, and those it reports, come from
    [buildCreateInvitePromises] called on the checked request. *)
Lemma handler_created req outcome effects (r : Invite.t) :
  handler env req = (outcome, effects) ->
  In (Create r) effects
  \/ (exists status body, outcome = Json status body /\ In r (success body)) ->
  exists invite failed0 effects0 invites,
    check env req = (Proceed invite failed0, effects0)
    /\ getPendingInvitesForProject env (Req.params_projectId req) = Resolved invites
    /\ In r (fst (fst (buildCreateInvitePromises env req invite invites
                          (inviteData env req invite) failed0))).
Proof.
  unfold handler. pose proof (check_no_create req r) as Hc.
  destruct (check env req) as [[err|invite failed0] effects0]; simpl in Hc.
  { intros [= <- <-] [H | (st & body & [=] & _)]. contradiction. }
  destruct (getPendingInvitesForProject env _) as [invites|].
  2:{ intros [= <- <-] [H | (st & body & [=] & _)].
      apply in_app_iff in H as [H|[[=]|[]]]. contradiction. }
  pose proof (build_creates req invite invites (inviteData env req invite) failed0 r) as Hb.
  destruct (buildCreateInvitePromises _ _ _ _ _ _) as [[datas failed1] built] eqn:B.
  simpl in Hb.
  assert (Heff : In (Create r) ((effects0 ++ [GetPendingInvitesForProject
                                                (Req.params_projectId req)]) ++ built)
                 -> In r datas).
  { rewrite !in_app_iff. simpl. intros [[H|[[=]|[]]]|H]; [contradiction|now apply Hb]. }
  destruct (Promise_all _) as [values|] eqn:P.
  - apply Promise_all_create in P. subst values.
    intros [= <- <-] H. exists invite, failed0, effects0, invites.
    rewrite B. repeat split; auto. simpl.
    destruct H as [H | (st & body & E & H)].
    + apply in_app_iff in H as [H|H]; [now apply Heff|].
      now apply announce_no_create in H.
    + unfold respond in E. destruct failed1; injection E as <- <-; exact H.
  - intros [= <- <-] [H | (st & body & [=] & _)].
    exists invite, failed0, effects0, invites. rewrite B. repeat split; auto.
Qed.

(** C6: every invite the handler creates (and so every invite of the success
    list), whether it was built from a user id or from an e-mail, has status
    [REQUESTED] exactly when the requested role is the copilot role and the
    caller holds neither the admin nor the copilot-manager role; otherwise
    its status is [PENDING]. *)
Theorem status_rule req outcome effects (r : Invite.t) :
  handler env req = (outcome, effects) ->
  In (Create r) effects
  \/ (exists status body, outcome = Json status body /\ In r (success body)) ->
  let unprivilegedCopilot :=
    Param.role (Req.body_param req) = COPILOT
    /\ hasRoles env (Req.authUser req) [CONNECT_ADMIN; COPILOT_MANAGER] = false in
  (Invite.status r = REQUESTED <-> unprivilegedCopilot)
  /\ (Invite.status r = PENDING <-> ~ unprivilegedCopilot).
Proof.
  intros H Hr.
  destruct (@handler_created _ _ _ _ H Hr) as (invite & failed0 & effects0 & invites & Hc & _ & Hin).
  apply build_from_template in Hin as (u & e & ->).
  apply check_role in Hc. simpl. rewrite Hc.
  destruct (String.eqb (Param.role (Req.body_param req)) COPILOT) eqn:E;
    [apply String.eqb_eq in E | apply String.eqb_neq in E];
    destruct (hasRoles env (Req.authUser req) [CONNECT_ADMIN; COPILOT_MANAGER]); simpl;
    intuition (congruence || discriminate).
Qed.

(** *** Predicates that may throw *)

Lemma _some_false_iff (A : Type) (pred : A -> Completion bool) (l : list A) :
  _some pred l = Return false <-> forall x, In x l -> pred x = Return false.
Proof.
  induction l as [|a l IH]; simpl.
  - split; [intros _ x []|reflexivity].
  - destruct (pred a) as [[|]|e] eqn:E.
    + split; [discriminate|]. intros H. specialize (H a (or_introl eq_refl)).
      congruence.
    + rewrite IH. split.
      * intros H x [<-|Hx]; auto.
      * intros H x Hx. apply H. now right.
    + split; [discriminate|]. intros H. specialize (H a (or_introl eq_refl)).
      congruence.
Qed.

Lemma _some_returns (A : Type) (pred : A -> Completion bool) (l : list A) :
  (forall x, In x l -> returns (pred x)) ->
  _some pred l = Return (existsb (fun x => isTrue (pred x)) l).
Proof.
  induction l as [|a l IH]; simpl; intros H; auto.
  destruct (H a (or_introl eq_refl)) as [b E]. rewrite E. simpl.
  destruct b; auto.
Qed.

Lemma filterC_In (A : Type) (pred : A -> Completion bool) (l r : list A) :
  filterC pred l = Return r ->
  forall x, In x r <-> In x l /\ pred x = Return true.
Proof.
  revert r. induction l as [|a l IH]; simpl; intros r H x.
  - injection H as <-. simpl. tauto.
  - destruct (pred a) as [b|e] eqn:E; [|discriminate].
    destruct (filterC pred l) as [r'|e]; [|discriminate].
    injection H as <-. specialize (IH r' eq_refl x).
    destruct b; simpl; rewrite IH; intuition (subst; auto; congruence).
Qed.

Lemma filterC_returns (A : Type) (pred : A -> Completion bool) (l : list A) :
  (forall x, In x l -> returns (pred x)) ->
  filterC pred l = Return (filter (fun x => isTrue (pred x)) l).
Proof.
  induction l as [|a l IH]; simpl; intros H; auto.
  destruct (H a (or_introl eq_refl)) as [b E]. rewrite E, IH by auto.
  now destruct b.
Qed.

Lemma notC_true (c : Completion bool) : notC c = Return true <-> c = Return false.
Proof.
  destruct c as [[|]|e]; simpl; split; congruence.
Qed.

Lemma notC_returns (c : Completion bool) : returns c -> returns (notC c).
Proof. intros [b ->]. now eexists. Qed.

Lemma isTrue_notC (c : Completion bool) :
  returns c -> isTrue (notC c) = negb (isTrue c).
Proof. intros [[|] ->]; reflexivity. Qed.

(** Telling registered from unregistered addresses never throws. *)
Lemma isNonExistent_returns (users : list User.t) (e : string) :
  returns (isNonExistent users e).
Proof.
  apply notC_returns. rewrite _some_returns; [now eexists|].
  intros u _. apply compareEmail_off_returns.
Qed.

Lemma isNonExistent_true (users : list User.t) (e : string) :
  isNonExistent users e = Return true
  <-> forall user, In user users ->
        compareEmail (User.email user) (Some e) gmailOff = Return false.
Proof.
  unfold isNonExistent. now rewrite notC_true, _some_false_iff.
Qed.

Lemma In_remove (A : Type) (pred : A -> bool) (l : list A) (x : A) :
  In x (_remove pred l) <-> In x l /\ pred x = false.
Proof.
  unfold _remove. rewrite filter_In. now rewrite negb_true_iff.
Qed.

Lemma userId_path invite invites data :
  match Param.userIds invite with
  | Some userIds => map (byUserId data) (_remove (invitedUserId invites) userIds)
  | None => []
  end
  = map (byUserId data)
        (_remove (invitedUserId invites) (candidates (Param.userIds invite))).
Proof. now destruct (Param.userIds invite). Qed.

(** *** The e-mail path of [buildCreateInvitePromises] *)

(** C8 (as amended): when the look-up of the e-mails succeeds and the
    configured comparison raises on no pending invitation, no failure is
    added and the invites created are exactly
    - one per user id not invited yet;
    - one per account found whose id has no pending invitation, carrying that
      id and the account's e-mail in lower case: registered candidates are
      deduplicated by user id, not by e-mail;
    - one per e-mail that is the address of no account found (case-insensitive
      comparison) and that no pending invitation matches under the configured
      comparison, carrying the e-mail in lower case and no user id. *)
Theorem email_path_materialisation req invite0 invite invites failed0
        (es : list string) (users : list User.t) :
  Param.emails invite = Some es ->
  lookupUserEmails env es = Resolved users ->
  (forall e i, In e es -> In i invites ->
               returns (compareEmail (Invite.email i) (Some e) (configured env))) ->
  let data := inviteData env req invite0 in
  let built := buildCreateInvitePromises env req invite invites data failed0 in
  snd (fst built) = failed0
  /\ forall d,
       In d (fst (fst built)) <->
       (exists u, In u (candidates (Param.userIds invite))
                  /\ invitedUserId invites u = false
                  /\ d = withIdentity data (Some u) None)
       \/ (exists user, In user users
                        /\ invitedUserId invites (User.id user) = false
                        /\ d = withIdentity data (Some (User.id user))
                                  (option_map Js.toLowerCase (User.email user)))
       \/ (exists e, In e es
                     /\ (forall user, In user users ->
                           compareEmail (User.email user) (Some e) gmailOff
                           = Return false)
                     /\ (forall i, In i invites ->
                           compareEmail (Invite.email i) (Some e) (configured env)
                           = Return false)
                     /\ d = withIdentity data None (Some (Js.toLowerCase e))).
Proof.
  intros He Hl Hret data built. subst built. unfold buildCreateInvitePromises.
  rewrite He, Hl, userId_path.
  destruct (filterC (isNonExistent users) es) as [nonExistent|error] eqn:F.
  2:{ rewrite filterC_returns in F; [discriminate|].
      intros e _. apply isNonExistent_returns. }
  pose proof (filterC_In _ _ F) as HF.
  unfold _removeC.
  destruct (filterC (fun x => notC (invitedEmail env invites x)) nonExistent)
    as [remaining|error] eqn:R.
  2:{ rewrite filterC_returns in R; [discriminate|].
      intros e Hin. apply notC_returns. unfold invitedEmail.
      rewrite _some_returns; [now eexists|].
      intros i Hi. apply Hret; auto. now apply HF in Hin. }
  pose proof (filterC_In _ _ R) as HR. simpl. split; [reflexivity|].
  intros d. rewrite !in_app_iff, !in_map_iff.
  split.
  - intros [(u & <- & Hu)|[(user & <- & Hu)|(e & <- & Hin)]].
    + left. apply In_remove in Hu as [Hu Hn]. exists u. auto.
    + right; left. apply In_remove in Hu as [Hu Hn]. exists user. auto.
    + right; right. apply HR in Hin as [Hin Hn]. apply HF in Hin as [Hin Hx].
      exists e. repeat split; auto.
      * now apply isNonExistent_true.
      * apply notC_true in Hn. unfold invitedEmail in Hn.
        now rewrite _some_false_iff in Hn.
  - intros [(u & Hu & Hn & ->)|[(user & Hu & Hn & ->)|(e & Hin & Hx & Hn & ->)]].
    + left. exists u. split; [reflexivity|]. now apply In_remove.
    + right; left. exists user. split; [reflexivity|]. now apply In_remove.
    + right; right. exists e. split; [reflexivity|].
      apply HR. split.
      * apply HF. split; auto. now apply isNonExistent_true.
      * apply notC_true. unfold invitedEmail. now rewrite _some_false_iff.
Qed.

(** C7: when the look-up of the e-mails is rejected, every e-mail of the
    request gets one entry in [failed] (with the [statusText] of the error),
    the only invites created are those of the user ids not invited yet, and
    the handler still answers with a body: these invites in the success list,
    the failures in the failed list. *)
Theorem email_lookup_failure_isolated req invite failed0 effects0 invites
        (es : list string) (error : Error) :
  check env req = (Proceed invite failed0, effects0) ->
  Param.emails invite = Some es ->
  es <> [] ->
  getPendingInvitesForProject env (Req.params_projectId req) = Resolved invites ->
  lookupUserEmails env es = Rejected error ->
  let queued :=
    map (fun u => withIdentity (inviteData env req invite) (Some u) None)
        (_remove (invitedUserId invites) (candidates (Param.userIds invite))) in
  (forall d, In d queued -> createRejection env d = None) ->
  handler env req
  = (Json 403
       {| success := queued;
          failed :=
            Some (failed0
                  ++ map (fun email =>
                            {| Failure.userId := None;
                               Failure.email := Some email;
                               Failure.message := err_statusText error |})
                         es) |},
     effects0
     ++ [GetPendingInvitesForProject (Req.params_projectId req)]
     ++ map Create queued
     ++ [LookupUserEmails es]
     ++ flat_map (announce (Req.params_projectId req)) queued).
Proof.
  intros Hc He Hne Hp Hl queued Hok.
  unfold handler. rewrite Hc, Hp. unfold buildCreateInvitePromises.
  rewrite He, Hl, userId_path. rewrite app_nil_r.
  change (map (byUserId (inviteData env req invite))
              (_remove (invitedUserId invites) (candidates (Param.userIds invite))))
    with queued.
  rewrite Promise_all_create_accepted by assumption.
  unfold respond.
  destruct (failed0 ++ map (lookupFailure (Rejection error)) es) eqn:E.
  - apply app_eq_nil in E as [_ E]. apply map_eq_nil in E. contradiction.
  - rewrite <- E. unfold lookupFailure. simpl.
    now rewrite <- !app_assoc.
Qed.

(** *** The e-mail role restriction *)

Lemma check_withoutEmails req (es : list string) (ids : list Z) :
  Param.emails (Req.body_param req) = Some es ->
  Param.userIds (Req.body_param req) = Some ids ->
  Param.role (Req.body_param req) <> CUSTOMER ->
  hasRoles env (Req.authUser req) MANAGER_ROLES = true ->
  check env req
  = match check env (withoutEmails req) with
    | (Aborted err, effects) => (Aborted err, effects)
    | (Proceed invite failed0, effects) =>
        (Proceed invite (map emailRoleFailure es ++ failed0), effects)
    end.
Proof.
  intros He Hu Hr Hm. apply String.eqb_neq in Hr.
  unfold check. simpl. rewrite He, Hu, Hm, Hr. simpl.
  destruct (match map (getUserRoles env) _ with [] => _ | _ :: _ => _ end);
    [|reflexivity].
  destruct (includes _ _); [|now rewrite app_nil_r].
  destruct (forbidUserList _ _); simpl; [now rewrite app_nil_r|reflexivity].
Qed.

Lemma check_emails_cleared req invite failed0 effects :
  check env req = (Proceed invite failed0, effects) ->
  Param.role (Req.body_param req) <> CUSTOMER ->
  Param.emails invite = None.
Proof.
  intros H Hr. apply String.eqb_neq in Hr. revert H. unfold check.
  destruct (negb (isSome _) && negb (isSome _))%bool; [discriminate|].
  destruct (negb (hasRoles _ _ _) && _)%bool; [discriminate|].
  rewrite Hr. simpl.
  destruct (Param.emails (Req.body_param req));
    destruct (match map _ _ with [] => _ | _ :: _ => _ end); try discriminate;
    now intros [= <- _ _].
Qed.

(** C4 (as amended): for a request that passes the request-level gate (the
    caller holds a manager-tier role), carries e-mails and asks for a role
    other than the customer role,
    - no invite with an e-mail is created;
    - if it carries user ids, it is answered as the same request without the
      e-mails is, with the same collaborators called, except that the failed
      list starts with one entry per e-mail, with the message
      "Emails can only be used for <customer role>", and the status is 403;
    - if it carries no user ids, the answer is 403 with an empty success list
      and these entries as the failed list (unless the store fails). *)
Theorem email_role_restriction req (es : list string) :
  Param.emails (Req.body_param req) = Some es ->
  es <> [] ->
  Param.role (Req.body_param req) <> CUSTOMER ->
  hasRoles env (Req.authUser req) MANAGER_ROLES = true ->
  let restricted :=
    map (fun email =>
           {| Failure.userId := None;
              Failure.email := Some email;
              Failure.message :=
                Some ("Emails can only be used for " ++ CUSTOMER)%string |})
        es in
  (forall d, In (Create d) (snd (handler env req)) -> Invite.email d = None)
  /\ match Param.userIds (Req.body_param req) with
     | Some _ =>
         handler env req
         = (match fst (handler env (withoutEmails req)) with
            | Next err => Next err
            | Json _ body =>
                Json 403 {| success := success body;
                            failed := Some (restricted ++ candidates (failed body)) |}
            end,
            snd (handler env (withoutEmails req)))
     | None =>
         handler env req
         = (match getPendingInvitesForProject env (Req.params_projectId req) with
            | Rejected err => Next err
            | Resolved _ => Json 403 {| success := []; failed := Some restricted |}
            end,
            [GetPendingInvitesForProject (Req.params_projectId req)])
     end.
Proof.
  intros He Hne Hr Hm restricted. split.
  - intros d Hd.
    destruct (handler env req) as [outcome effects] eqn:H. simpl in Hd.
    destruct (@handler_created _ _ _ d H (or_introl Hd))
      as (invite & failed0 & effects0 & invites & Hc & _ & Hin).
    apply check_emails_cleared in Hc; auto.
    unfold buildCreateInvitePromises in Hin. rewrite Hc in Hin. simpl in Hin.
    destruct (Param.userIds invite); [|destruct Hin].
    apply in_map_iff in Hin as (u & <- & _). reflexivity.
  - destruct (Param.userIds (Req.body_param req)) as [ids|] eqn:Hu.
    + unfold handler. rewrite (check_withoutEmails req He Hu Hr Hm).
      destruct (check env (withoutEmails req)) as [[err|invite failed0] effects0] eqn:C;
        [reflexivity|].
      change (Req.params_projectId (withoutEmails req)) with (Req.params_projectId req).
      destruct (getPendingInvitesForProject env _) as [invites|]; [|reflexivity].
      apply check_emails_cleared in C; [|exact Hr].
      unfold buildCreateInvitePromises. rewrite C.
      change (inviteData env (withoutEmails req) invite) with (inviteData env req invite).
      destruct (Promise_all _); [|reflexivity].
      simpl. f_equal. unfold respond.
      change (map emailRoleFailure es) with restricted.
      destruct restricted eqn:R; [subst restricted; now apply map_eq_nil in R|].
      destruct failed0; simpl; [now rewrite app_nil_r|reflexivity].
    + apply String.eqb_neq in Hr.
      unfold handler, check. rewrite He, Hu, Hm, Hr. simpl.
      destruct (getPendingInvitesForProject env _); [|reflexivity].
      unfold buildCreateInvitePromises. simpl.
      change (map emailRoleFailure es) with restricted.
      destruct restricted eqn:R; [subst restricted; now apply map_eq_nil in R|].
      reflexivity.
Qed.

(** *** The per-candidate manager check *)

(** C5 (as amended): a caller with a manager-tier role asks for a
    manager-tier project role for the user ids [U1; U2], neither a member of
    the project, [U1] not invited yet; the roles fetched for [U1] intersect
    [MANAGER_ROLES], those fetched for [U2] do not.  Then exactly one invite
    is created, for [U1], and [U2] is reported in the failed list with the
    message "cannot be added with a Manager role to the project". *)
Theorem manager_authorization req (U1 U2 : Z) (roles1 roles2 : list string)
        invites :
  Param.userIds (Req.body_param req) = Some [U1; U2] ->
  Param.emails (Req.body_param req) = None ->
  includes PROJECT_MEMBER_MANAGER_ROLES (Param.role (Req.body_param req)) = true ->
  hasRoles env (Req.authUser req) MANAGER_ROLES = true ->
  isMember (Req.context_currentProjectMembers req) U1 = false ->
  isMember (Req.context_currentProjectMembers req) U2 = false ->
  getUserRoles env U1 = Resolved roles1 ->
  getUserRoles env U2 = Resolved roles2 ->
  hasIntersection env MANAGER_ROLES roles1 = true ->
  hasIntersection env MANAGER_ROLES roles2 = false ->
  getPendingInvitesForProject env (Req.params_projectId req) = Resolved invites ->
  invitedUserId invites U1 = false ->
  let created :=
    withIdentity (inviteData env req (Req.body_param req)) (Some U1) None in
  createRejection env created = None ->
  handler env req
  = (Json 403
       {| success := [created];
          failed :=
            Some [{| Failure.userId := Some U2;
                     Failure.email := None;
                     Failure.message :=
                       Some "cannot be added with a Manager role to the project" |}] |},
     [GetUserRoles U1; GetUserRoles U2;
      GetPendingInvitesForProject (Req.params_projectId req);
      Create created; Emit created; Publish created]).
Proof.
  intros Hu He Hrole Hm Hm1 Hm2 Hr1 Hr2 Hi1 Hi2 Hp Hinv created Hok.
  assert (Hne : Z.eqb U1 U2 = false).
  { apply Z.eqb_neq. intros ->. rewrite Hr1 in Hr2. injection Hr2 as ->. congruence. }
  unfold handler, check. rewrite Hu, He, Hm. simpl.
  rewrite Hm1, Hm2. simpl. rewrite Hrole. simpl. rewrite Hr1, Hr2. simpl.
  unfold forbidUserList, forbidden. simpl. rewrite Hi1, Hi2. simpl.
  rewrite Hne, Z.eqb_refl. simpl. rewrite Hp.
  unfold buildCreateInvitePromises. simpl. rewrite Hinv. simpl.
  unfold create.
  change (byUserId _ U1) with created. rewrite Hok. simpl.
  reflexivity.
Qed.

End Handler.

(** ** A second invocation *)

Section SecondInvocation.

Context {K : Constants}.
Variable env : Env.

Implicit Types (req : Req.t) (invite : Param.t) (invites : list Invite.t).

Lemma remove_all (A : Type) (pred : A -> bool) (l : list A) :
  (forall x, In x l -> pred x = true) -> _remove pred l = [].
Proof.
  induction l as [|a l IH]; simpl; intros H; auto.
  rewrite (H a) by auto. simpl. apply IH. auto.
Qed.

Lemma filterC_none (A : Type) (pred : A -> Completion bool) (l : list A) :
  (forall x, In x l -> pred x = Return false) -> filterC pred l = Return [].
Proof.
  induction l as [|a l IH]; simpl; intros H; auto.
  rewrite (H a), IH; auto.
Qed.

Lemma invitedUserId_intro invites (i : Invite.t) (u : Z) :
  In i invites -> Invite.userId i = Some u -> invitedUserId invites u = true.
Proof.
  intros Hin Hu. unfold invitedUserId. apply existsb_exists. exists i.
  split; auto. rewrite Hu. simpl. apply Z.eqb_refl.
Qed.

Lemma invitedUserId_mono invites invites2 (u : Z) :
  (forall i, In i invites -> In i invites2) ->
  invitedUserId invites u = true -> invitedUserId invites2 u = true.
Proof.
  unfold invitedUserId. rewrite !existsb_exists.
  intros H (i & Hi & E). exists i. auto.
Qed.

Lemma check_emails req invite failed0 effects (es : list string) :
  check env req = (Proceed invite failed0, effects) ->
  Param.emails invite = Some es ->
  Param.emails (Req.body_param req) = Some es.
Proof.
  unfold check.
  destruct (negb (isSome _) && negb (isSome _))%bool; [discriminate|].
  destruct (negb (hasRoles _ _ _) && _)%bool; [discriminate|].
  destruct (Param.emails (Req.body_param req)) as [l|];
    [destruct (negb (String.eqb _ _))|];
    destruct (match map _ _ with [] => _ | _ :: _ => _ end); try discriminate;
    intros [= <- _ _]; simpl; congruence.
Qed.

(** Once the store holds the invites that were pending and those just
    created, [buildCreateInvitePromises] creates nothing and reports what it
    reported. *)
Lemma build_second req invite invites invites2 data failed0 :
  let built := buildCreateInvitePromises env req invite invites data failed0 in
  (forall i, In i invites -> In i invites2) ->
  (forall d, In d (fst (fst built)) -> In d invites2) ->
  (forall e i, In e (candidates (Param.emails invite)) -> In i invites2 ->
               returns (compareEmail (Invite.email i) (Some e) (configured env))) ->
  (forall e, In e (candidates (Param.emails invite)) ->
             compareEmail (Some (Js.toLowerCase e)) (Some e) (configured env)
             = Return true) ->
  fst (buildCreateInvitePromises env req invite invites2 data failed0)
  = ([], snd (fst built)).
Proof.
  intros built Hold Hnew Hret Hself. subst built. revert Hnew.
  unfold buildCreateInvitePromises. rewrite !userId_path.
  set (ids := candidates (Param.userIds invite)).
  assert (Hids : forall datas,
             (forall d, In d (map (byUserId data) (_remove (invitedUserId invites) ids)
                              ++ datas) -> In d invites2) ->
             map (byUserId data) (_remove (invitedUserId invites2) ids) = []).
  { intros datas Hnew. rewrite remove_all; [reflexivity|]. intros u Hu.
    destruct (invitedUserId invites u) eqn:E.
    - now apply invitedUserId_mono with invites.
    - apply invitedUserId_intro with (byUserId data u); [|reflexivity].
      apply Hnew, in_app_iff. left. apply in_map. now apply In_remove. }
  destruct (Param.emails invite) as [es|]; simpl in Hret, Hself.
  { destruct (lookupUserEmails env es) as [users|error].
    - destruct (filterC (isNonExistent users) es) as [nonExistent|error] eqn:F.
      2:{ rewrite filterC_returns in F; [discriminate|].
          intros e _. apply isNonExistent_returns. }
      pose proof (filterC_In _ _ F) as HF.
      assert (Hsome : forall l e, (forall i, In i l -> In i invites2) -> In e es ->
                 invitedEmail env l e
                 = Return (existsb (fun i => isTrue (compareEmail (Invite.email i) (Some e)
                                                       (configured env))) l)).
      { intros l e Hl He. unfold invitedEmail. apply _some_returns.
        intros i Hi. apply Hret; auto. }
      unfold _removeC.
      destruct (filterC (fun x => notC (invitedEmail env invites x)) nonExistent)
        as [remaining|error] eqn:R.
      2:{ rewrite filterC_returns in R; [discriminate|].
          intros e He. apply notC_returns. apply HF in He as [He _].
          rewrite Hsome; auto. now eexists. }
      pose proof (filterC_In _ _ R) as HR. simpl. intros Hnew.
      rewrite (Hids _ Hnew).
      rewrite remove_all.
      2:{ intros user Hu.
          destruct (invitedUserId invites (User.id user)) eqn:E.
          - now apply invitedUserId_mono with invites.
          - apply invitedUserId_intro with (byExistentUser data user); [|reflexivity].
            apply Hnew. rewrite !in_app_iff. right; left.
            apply in_map. now apply In_remove. }
      rewrite filterC_none; [reflexivity|].
      intros e He. assert (Hes : In e es) by now apply HF in He.
      rewrite Hsome by auto. simpl. f_equal. apply negb_false_iff, existsb_exists.
      destruct (existsb (fun i => isTrue (compareEmail (Invite.email i) (Some e)
                                            (configured env))) invites) eqn:E.
      + apply existsb_exists in E as (i & Hi & E). exists i. auto.
      + exists (byEmail data e). split.
        * apply Hnew. rewrite !in_app_iff. right; right. apply in_map.
          apply HR. split; auto. rewrite Hsome by auto. now rewrite E.
        * simpl. now rewrite Hself.
    - simpl. rewrite !app_nil_r. intros Hnew.
      rewrite (Hids [] ltac:(now rewrite app_nil_r)). reflexivity. }
  simpl. intros Hnew.
  rewrite (Hids [] ltac:(now rewrite app_nil_r)). reflexivity.
Qed.

Lemma check_withPendingInvites req invites2 :
  check (withPendingInvites env invites2) req = check env req.
Proof. reflexivity. Qed.

(** C1 (as amended): let the handler have answered a request with a body.
    When the same request is handled again, the collaborators answering as
    before and the store now holding the invitations that were pending and
    those just created, no invite is created and the failures reported are
    those of the first answer, with the same status.  This holds when alias
    canonicalisation is off, and also when it is on provided the comparison
    raises on none of these invitations and relates every e-mail of the
    request to its lower-case form. *)
Theorem second_invocation_idempotent req invites invites2 status body effects :
  getPendingInvitesForProject env (Req.params_projectId req) = Resolved invites ->
  handler env req = (Json status body, effects) ->
  (forall i, In i invites -> In i invites2) ->
  (forall r, In r (success body) -> In r invites2) ->
  config_UNIQUE_GMAIL_VALIDATION env = false
  \/ ((forall e i, In e (candidates (Param.emails (Req.body_param req))) ->
                   In i invites2 ->
                   returns (compareEmail (Invite.email i) (Some e) (configured env)))
      /\ (forall e, In e (candidates (Param.emails (Req.body_param req))) ->
                    compareEmail (Some (Js.toLowerCase e)) (Some e) (configured env)
                    = Return true)) ->
  let second := handler (withPendingInvites env invites2) req in
  fst second = Json status {| success := []; failed := failed body |}
  /\ forall d, ~ In (Create d) (snd second).
Proof.
  intros Hp H Hold Hnew Hcmp.
  assert (Hret : forall e i, In e (candidates (Param.emails (Req.body_param req))) ->
                   In i invites2 ->
                   returns (compareEmail (Invite.email i) (Some e) (configured env))).
  { destruct Hcmp as [Hoff|[Hret _]]; [|exact Hret].
    intros e i _ _. unfold configured. rewrite Hoff. apply compareEmail_off_returns. }
  assert (Hself : forall e, In e (candidates (Param.emails (Req.body_param req))) ->
                    compareEmail (Some (Js.toLowerCase e)) (Some e) (configured env)
                    = Return true).
  { destruct Hcmp as [Hoff|[_ Hself]]; [|exact Hself].
    intros e _. unfold configured. rewrite Hoff. apply compareEmail_off_lower. }
  clear Hcmp.
  apply handler_json in H as (invite & failed0 & effects0 & invites' & Hc & Hp' & _ & Hr).
  rewrite Hp in Hp'. injection Hp' as <-. cbv zeta in Hr.
  assert (Hem : forall e, In e (candidates (Param.emails invite)) ->
                          In e (candidates (Param.emails (Req.body_param req)))).
  { destruct (Param.emails invite) as [es|] eqn:E; [|intros e []].
    now rewrite (@check_emails req invite failed0 effects0 es Hc E). }
  assert (Hs : success body
               = fst (fst (buildCreateInvitePromises env req invite invites
                             (inviteData env req invite) failed0))).
  { unfold respond in Hr. destruct (snd (fst _)); now injection Hr as _ ->. }
  pose proof (@build_second req invite invites invites2
                (inviteData env req invite) failed0 Hold) as B.
  cbv zeta in B. rewrite <- Hs in B.
  specialize (B Hnew (fun e i He => Hret e i (Hem e He))
                (fun e He => Hself e (Hem e He))).
  intros second. split.
  - subst second. unfold handler. rewrite check_withPendingInvites, Hc.
    change (getPendingInvitesForProject (withPendingInvites env invites2)
              (Req.params_projectId req)) with (Resolved (A := list Invite.t) invites2).
    cbv iota beta.
    change (buildCreateInvitePromises (withPendingInvites env invites2) req invite
              invites2 (inviteData (withPendingInvites env invites2) req invite) failed0)
      with (buildCreateInvitePromises env req invite invites2
              (inviteData env req invite) failed0).
    destruct (buildCreateInvitePromises env req invite invites2 _ failed0)
      as [[datas2 failed2] built2].
    simpl in B. injection B as -> ->. simpl.
    unfold respond in *. destruct (snd (fst _)); now injection Hr as -> ->.
  - intros d Hd.
    destruct second as [outcome2 effects2] eqn:E2. subst second. simpl in Hd.
    destruct (@handler_created _ _ _ _ _ d E2 (or_introl Hd))
      as (invite2 & failed2 & effects2' & invites2' & Hc2 & Hp2 & Hin).
    rewrite check_withPendingInvites, Hc in Hc2. injection Hc2 as <- <- <-.
    injection Hp2 as <-.
    change (buildCreateInvitePromises (withPendingInvites env invites2) req invite
              invites2 (inviteData (withPendingInvites env invites2) req invite) failed0)
      with (buildCreateInvitePromises env req invite invites2
              (inviteData env req invite) failed0) in Hin.
    rewrite B in Hin. exact Hin.
Qed.

End SecondInvocation.

(** ** Further properties of the handler *)

Section HandlerShape.

Context {K : Constants}.
Variable env : Env.

Implicit Types (req : Req.t) (invite : Param.t) (invites : list Invite.t).

(** The four ways the handler ends: stopped by the checks, by the store when
    the pending invitations are read, by a rejected [create], or with a
    body. *)
Lemma handler_cases req :
  (exists err effects0,
      check env req = (Aborted err, effects0)
      /\ handler env req = (Next err, effects0))
  \/ exists invite failed0 effects0,
      check env req = (Proceed invite failed0, effects0)
      /\ let fetch := GetPendingInvitesForProject (Req.params_projectId req) in
         (exists err,
             getPendingInvitesForProject env (Req.params_projectId req) = Rejected err
             /\ handler env req = (Next err, effects0 ++ [fetch]))
         \/ exists invites datas failed1 built,
             getPendingInvitesForProject env (Req.params_projectId req)
             = Resolved invites
             /\ buildCreateInvitePromises env req invite invites
                  (inviteData env req invite) failed0
                = (datas, failed1, built)
             /\ ((exists err,
                     Promise_all (map (create env) datas) = Rejected err
                     /\ handler env req
                        = (Next err, (effects0 ++ [fetch]) ++ built))
                 \/ (Promise_all (map (create env) datas) = Resolved datas
                     /\ handler env req
                        = (respond datas failed1,
                           ((effects0 ++ [fetch]) ++ built)
                           ++ flat_map (announce (Req.params_projectId req)) datas))).
Proof.
  unfold handler.
  destruct (check env req) as [[err|invite failed0] effects0].
  { left. now exists err, effects0. }
  right. exists invite, failed0, effects0. split; [reflexivity|]. cbv zeta.
  destruct (getPendingInvitesForProject env _) as [invites|err].
  2:{ left. now exists err. }
  right.
  destruct (buildCreateInvitePromises _ _ _ _ _ _) as [[datas failed1] built] eqn:B.
  exists invites, datas, failed1, built. split; [reflexivity|]. split; [exact B|].
  destruct (Promise_all _) as [values|err] eqn:P.
  - right. apply Promise_all_create in P as E. subst values. now split.
  - left. now exists err.
Qed.

(** What [check] calls: the role look-ups, for the user ids that are not
    members, when the role asked for is a manager-tier role. *)
Lemma check_effects req :
  snd (check env req) = []
  \/ snd (check env req)
     = map GetUserRoles
           (roleLookups (Req.body_param req)
              (option_map (_remove (isMember (Req.context_currentProjectMembers req)))
                          (Param.userIds (Req.body_param req)))).
Proof.
  unfold check.
  destruct (negb (isSome _) && negb (isSome _))%bool; [now left|].
  destruct (negb (hasRoles _ _ _) && _)%bool; [now left|].
  destruct (match Param.emails _ with Some _ => _ | None => _ end) as [f e].
  destruct (match map _ _ with [] => _ | _ :: _ => _ end); right; reflexivity.
Qed.

Lemma announce_In (projectId : Z) (values : list Invite.t) (x : Effect) :
  In x (flat_map (announce projectId) values)
  <-> exists v, In v values
                /\ (x = Emit v \/ x = Publish v
                    \/ (x = SendInviteEmail projectId v
                        /\ (truthyString (Invite.email v)
                            && negb (truthyZ (Invite.userId v))
                            && isPending (Invite.status v))%bool = true)).
Proof.
  rewrite in_flat_map. split.
  - intros (v & Hv & H). exists v. split; auto. unfold announce in H.
    destruct (_ && _ && _)%bool; simpl in H; intuition.
  - intros (v & Hv & H). exists v. split; auto. unfold announce.
    destruct H as [->|[->|[-> ->]]]; simpl; auto.
Qed.

End HandlerShape.

(** ** The checks before the invites are built *)

Section Checks.

Context {K : Constants}.
Variable env : Env.

Implicit Types (req : Req.t) (invite : Param.t) (invites : list Invite.t).

Lemma Promise_all_map_resolved (A B : Type) (f : A -> Promise B)
      (l : list A) (values : list B) :
  Promise_all (map f l) = Resolved values ->
  Forall2 (fun a b => f a = Resolved b) l values.
Proof.
  revert values. induction l as [|a l IH]; simpl; intros values H.
  - injection H as <-. constructor.
  - destruct (f a) as [b|e] eqn:E; [|discriminate].
    destruct (Promise_all (map f l)) as [bs|e]; [|discriminate].
    injection H as <-. constructor; auto.
Qed.

Lemma Promise_all_map_rejected (A B : Type) (f : A -> Promise B)
      (l : list A) (e : Error) :
  Promise_all (map f l) = Rejected e -> exists a, In a l /\ f a = Rejected e.
Proof.
  induction l as [|a l IH]; simpl; [discriminate|].
  destruct (f a) as [b|e'] eqn:E.
  - destruct (Promise_all (map f l)) as [bs|e']; [discriminate|].
    intros [= <-]. destruct (IH eq_refl) as (x & Hx & Ex). exists x. auto.
  - intros [= <-]. exists a. auto.
Qed.

Lemma Promise_all_some_rejected (A B : Type) (f : A -> Promise B)
      (l : list A) (a : A) (e : Error) :
  In a l -> f a = Rejected e -> exists e', Promise_all (map f l) = Rejected e'.
Proof.
  induction l as [|x l IH]; simpl; [intros []|].
  intros [->|Hin] Ha.
  - rewrite Ha. now eexists.
  - destruct (f x); [|now eexists].
    destruct (IH Hin Ha) as [e' ->]. now eexists.
Qed.

(** The list of the forbidden users, when every role look-up resolved. *)
Lemma forbidUserList_resolved (ids : list Z) (fetched : list (list string)) :
  Forall2 (fun u roles => getUserRoles env u = Resolved roles) ids fetched ->
  forbidUserList env ids (map Some fetched)
  = map Some (filter (lacksManagerRole env) ids).
Proof.
  unfold forbidUserList. induction 1 as [|u roles ids fetched Hu _ IH]; [reflexivity|].
  simpl. unfold forbidden at 1, lacksManagerRole at 1. simpl. rewrite Hu.
  destruct (negb (hasIntersection env MANAGER_ROLES roles)); simpl; now rewrite IH.
Qed.

Lemma filter_none_all (A : Type) (p : A -> bool) (l : list A) :
  filter p l = [] -> filter (fun x => negb (p x)) l = l.
Proof.
  induction l as [|a l IH]; simpl; auto.
  destruct (p a); [discriminate|]. simpl. intros H. now rewrite IH.
Qed.

Lemma filter_not_forbidden (ids : list Z) :
  filter (fun userId =>
            negb (existsb (optZ_eqb (Some userId))
                          (map Some (filter (lacksManagerRole env) ids))))
         ids
  = filter (fun u => negb (lacksManagerRole env u)) ids.
Proof.
  apply filter_ext_in. intros u Hu. f_equal.
  destruct (lacksManagerRole env u) eqn:E.
  - apply existsb_exists. exists (Some u). split; [|simpl; apply Z.eqb_refl].
    apply in_map, filter_In. auto.
  - apply not_true_is_false. intros H. apply existsb_exists in H as (x & Hx & Ex).
    apply in_map_iff in Hx as (v & <- & Hv). simpl in Ex.
    apply Z.eqb_eq in Ex. subst v. apply filter_In in Hv as [_ Hv]. congruence.
Qed.

(** What the request has become, and which failures were recorded, when the
    checks let it through. *)
Lemma check_proceed req invite failed0 effects0 :
  check env req = (Proceed invite failed0, effects0) ->
  let param := Req.body_param req in
  let customer := String.eqb (Param.role param) CUSTOMER in
  let managerTier := includes PROJECT_MEMBER_MANAGER_ROLES (Param.role param) in
  Param.role invite = Param.role param
  /\ Param.emails invite = (if customer then Param.emails param else None)
  /\ Param.userIds invite
     = option_map (fun _ => if managerTier
                            then filter (fun u => negb (lacksManagerRole env u))
                                        (nonMembers req)
                            else nonMembers req)
                  (Param.userIds param)
  /\ failed0
     = (if customer then [] else map emailRoleFailure (candidates (Param.emails param)))
       ++ (if managerTier
           then map (fun u => managerFailure (Some u))
                    (filter (lacksManagerRole env) (nonMembers req))
           else [])
  /\ effects0 = map GetUserRoles (if managerTier then nonMembers req else [])
  /\ (managerTier = true ->
      forall u, In u (nonMembers req) -> exists roles, getUserRoles env u = Resolved roles).
Proof.
  unfold check, nonMembers.
  destruct (negb (isSome _) && negb (isSome _))%bool; [discriminate|].
  destruct (negb (hasRoles _ _ _) && _)%bool; [discriminate|].
  set (param := Req.body_param req).
  set (members := Req.context_currentProjectMembers req).
  unfold roleLookups.
  assert (Hf : (let '(failed, emails) :=
                  match Param.emails param with
                  | Some emails =>
                      if negb (String.eqb (Param.role param) CUSTOMER)
                      then (map emailRoleFailure emails, None)
                      else ([], Some emails)
                  | None => ([], None)
                  end in (failed, emails))
               = (if String.eqb (Param.role param) CUSTOMER then []
                  else map emailRoleFailure (candidates (Param.emails param)),
                  if String.eqb (Param.role param) CUSTOMER
                  then Param.emails param else None)).
  { destruct (Param.emails param), (String.eqb (Param.role param) CUSTOMER);
      reflexivity. }
  destruct (match Param.emails param with Some _ => _ | None => _ end) as [f e].
  injection Hf as -> ->.
  assert (Hres : forall (l : list Z) fetched,
             Forall2 (fun u roles => getUserRoles env u = Resolved roles) l fetched ->
             forall v, In v l -> exists roles, getUserRoles env v = Resolved roles).
  { intros l fetched F v Hv.
    induction F; [destruct Hv|destruct Hv as [<-|Hv]; eauto]. }
  destruct (Param.userIds param) as [ids0|]; simpl.
  2:{ intros [= <- <- <-]. simpl. rewrite ?app_nil_r.
      destruct (includes _ _); repeat split; try reflexivity;
        try (now rewrite app_nil_r); intros _ u []. }
  destruct (includes PROJECT_MEMBER_MANAGER_ROLES (Param.role param)) eqn:M.
  2:{ simpl. intros [= <- <- <-]. simpl. rewrite app_nil_r.
      repeat split; discriminate. }
  destruct (_remove (isMember members) ids0) as [|u ids] eqn:R.
  { simpl. intros [= <- <- <-]. simpl. rewrite app_nil_r.
    repeat split; intros _ v []. }
  rewrite <- R. set (l := _remove (isMember members) ids0) in *.
  assert (Hne : map (getUserRoles env) l <> []) by (rewrite R; discriminate).
  destruct (map (getUserRoles env) l) as [|p ps] eqn:Mp; [contradiction|].
  rewrite <- Mp.
  destruct (Promise_all (map (getUserRoles env) l)) as [fetched|err] eqn:P;
    [|discriminate].
  apply Promise_all_map_resolved in P as F.
  rewrite (forbidUserList_resolved F).
  destruct (map Some (filter (lacksManagerRole env) l)) as [|x xs] eqn:Fb.
  - intros [= <- <- <-]. simpl. apply map_eq_nil in Fb. rewrite Fb.
    rewrite (filter_none_all _ _ Fb). simpl. rewrite app_nil_r.
    repeat split. intros _. exact (Hres _ _ F).
  - rewrite <- Fb. intros [= <- <- <-]. simpl. rewrite filter_not_forbidden.
    rewrite map_map. repeat split. intros _. exact (Hres _ _ F).
Qed.

Lemma check_aborted req err effects0 :
  check env req = (Aborted err, effects0) ->
  (Param.userIds (Req.body_param req) = None
   /\ Param.emails (Req.body_param req) = None
   /\ err_status err = Some 400 /\ effects0 = [])
  \/ (hasRoles env (Req.authUser req) MANAGER_ROLES = false
      /\ Param.role (Req.body_param req) <> CUSTOMER
      /\ err_status err = Some 403 /\ effects0 = [])
  \/ (includes PROJECT_MEMBER_MANAGER_ROLES (Param.role (Req.body_param req)) = true
      /\ (exists u, In u (nonMembers req) /\ getUserRoles env u = Rejected err)
      /\ effects0 = map GetUserRoles (nonMembers req)).
Proof.
  unfold check, nonMembers.
  destruct (Param.userIds (Req.body_param req)) as [ids0|] eqn:U;
    destruct (Param.emails (Req.body_param req)) as [es|] eqn:E; simpl;
    try (intros [= <- <-]; left; now repeat split).
  all: destruct (hasRoles env (Req.authUser req) MANAGER_ROLES) eqn:Hm; simpl.
  all: destruct (String.eqb (Param.role (Req.body_param req)) CUSTOMER) eqn:Hc; simpl.
  all: try (intros [= <- <-]; right; left; repeat split; auto;
            now apply String.eqb_neq).
  all: try discriminate.
  all: unfold roleLookups.
  all: destruct (includes PROJECT_MEMBER_MANAGER_ROLES _) eqn:M; simpl;
    try discriminate.
  all: destruct (map (getUserRoles env) _) as [|p ps] eqn:Mp; try discriminate.
  all: rewrite <- Mp.
  all: destruct (Promise_all (map (getUserRoles env) _)) as [fetched|e] eqn:P;
    try discriminate.
  all: intros [= <- <-]; right; right; repeat split;
    now apply Promise_all_map_rejected.
Qed.

(** X6: the per-candidate manager check, for any number of candidates.  The
    caller may ask for the role, which is a manager-tier role, and the roles
    of every user id that is not a member could be fetched.  Then the checks
    let the request through with, in request order, the user ids whose roles
    intersect [MANAGER_ROLES] left to be invited and one failure entry for
    each of the others, after the entries of the e-mails if the role is not
    the customer role; the roles were fetched once per non-member user id. *)
Theorem manager_tier_check req (ids0 : list Z) :
  Param.userIds (Req.body_param req) = Some ids0 ->
  (hasRoles env (Req.authUser req) MANAGER_ROLES
   || String.eqb (Param.role (Req.body_param req)) CUSTOMER)%bool = true ->
  includes PROJECT_MEMBER_MANAGER_ROLES (Param.role (Req.body_param req)) = true ->
  (forall u, In u (nonMembers req) ->
             exists roles, getUserRoles env u = Resolved roles) ->
  let param := Req.body_param req in
  let customer := String.eqb (Param.role param) CUSTOMER in
  check env req
  = (Proceed
       {| Param.userIds :=
            Some (filter (fun u => negb (lacksManagerRole env u)) (nonMembers req));
          Param.emails := if customer then Param.emails param else None;
          Param.role := Param.role param |}
       ((if customer then []
         else map emailRoleFailure (candidates (Param.emails param)))
        ++ map (fun u => managerFailure (Some u))
               (filter (lacksManagerRole env) (nonMembers req))),
     map GetUserRoles (nonMembers req)).
Proof.
  intros Hu Hgate Hm Hres param customer.
  destruct (check env req) as [[err|invite failed0] effects0] eqn:C.
  - exfalso. apply check_aborted in C as [(U & _)|[(Hr & Hc & _)|(_ & (u & Hin & Hrej) & _)]].
    + subst param. congruence.
    + apply String.eqb_neq in Hc. rewrite Hr, Hc in Hgate. discriminate.
    + destruct (Hres u Hin) as [roles Hroles]. congruence.
  - apply check_proceed in C. cbv zeta in C. rewrite Hm, Hu in C.
    destruct C as (Hrole & Hem & Hids & Hf & He & _). simpl in Hids.
    destruct invite as [uids ems rl]. simpl in *. subst. reflexivity.
Qed.

(** X7: a rejected role look-up is fatal.  When the role asked for is a
    manager-tier role and the roles of one of the non-member user ids cannot
    be fetched, the handler answers [next(err)] with the error of such a
    look-up; the pending invitations are not read and nothing is created or
    announced: the role look-ups are the only calls made. *)
Theorem role_lookup_rejection_fatal req (u : Z) (e : Error) :
  (hasRoles env (Req.authUser req) MANAGER_ROLES
   || String.eqb (Param.role (Req.body_param req)) CUSTOMER)%bool = true ->
  includes PROJECT_MEMBER_MANAGER_ROLES (Param.role (Req.body_param req)) = true ->
  In u (nonMembers req) ->
  getUserRoles env u = Rejected e ->
  exists err u',
    In u' (nonMembers req)
    /\ getUserRoles env u' = Rejected err
    /\ handler env req = (Next err, map GetUserRoles (nonMembers req)).
Proof.
  intros Hgate Hm Hin Hrej.
  destruct (check env req) as [[err|invite failed0] effects0] eqn:C.
  - pose proof C as C'.
    apply check_aborted in C' as [(U & _)|[(Hr & Hc & _)|(_ & (u' & Hin' & Hrej') & He)]].
    + unfold nonMembers in Hin. rewrite U in Hin. destruct Hin.
    + apply String.eqb_neq in Hc. rewrite Hr, Hc in Hgate. discriminate.
    + exists err, u'. repeat split; auto. unfold handler. rewrite C. now subst.
  - exfalso. apply check_proceed in C. cbv zeta in C.
    destruct C as (_ & _ & _ & _ & _ & Hres).
    destruct (Hres Hm u Hin) as [roles Hroles]. congruence.
Qed.

End Checks.

(** ** What is created, announced and reported *)

Section Announcements.

Context {K : Constants}.
Variable env : Env.

Implicit Types (req : Req.t) (invite : Param.t) (invites : list Invite.t).

Lemma created_app (l1 l2 : list Effect) : created (l1 ++ l2) = created l1 ++ created l2.
Proof. apply flat_map_app. Qed.

Lemma emitted_app (l1 l2 : list Effect) : emitted (l1 ++ l2) = emitted l1 ++ emitted l2.
Proof. apply flat_map_app. Qed.

Lemma published_app (l1 l2 : list Effect) :
  published (l1 ++ l2) = published l1 ++ published l2.
Proof. apply flat_map_app. Qed.

Lemma created_map_Create (l : list Invite.t) : created (map Create l) = l.
Proof. induction l as [|d l IH]; simpl; [reflexivity|]. now rewrite IH. Qed.

Lemma quiet_emitted (l : list Effect) :
  (forall x, In x l -> isAnnouncement x = false) ->
  emitted l = [] /\ published l = [].
Proof.
  induction l as [|x l IH]; simpl; intros H; [now split|].
  destruct IH as [IH1 IH2]; [intros y Hy; apply H; now right|].
  rewrite IH1, IH2. specialize (H x (or_introl eq_refl)).
  destruct x; try discriminate H; now split.
Qed.

Lemma created_announce (projectId : Z) (values : list Invite.t) :
  created (flat_map (announce projectId) values) = [].
Proof.
  induction values as [|v values IH]; simpl; [reflexivity|].
  unfold created in *. rewrite flat_map_app, IH.
  destruct (_ && _ && _)%bool; reflexivity.
Qed.

Lemma emitted_announce (projectId : Z) (values : list Invite.t) :
  emitted (flat_map (announce projectId) values) = values
  /\ published (flat_map (announce projectId) values) = values.
Proof.
  induction values as [|v values [IH1 IH2]]; simpl; [now split|].
  unfold emitted, published in *. rewrite !flat_map_app, IH1, IH2.
  destruct (_ && _ && _)%bool; now split.
Qed.

Lemma check_quiet req (x : Effect) :
  In x (snd (check env req)) -> isAnnouncement x = false /\ created [x] = [].
Proof.
  destruct (check_effects env req) as [-> | ->]; [intros []|].
  rewrite in_map_iff. now intros (u & <- & _).
Qed.

Lemma created_quiet (l : list Effect) :
  (forall x, In x l -> created [x] = []) -> created l = [].
Proof.
  induction l as [|x l IH]; simpl; intros H; [reflexivity|].
  unfold created in *. simpl. rewrite IH by (intros y Hy; apply H; now right).
  specialize (H x (or_introl eq_refl)). simpl in H. now rewrite app_nil_r in *.
Qed.

Lemma build_quiet req invite invites data failed0 (x : Effect) :
  In x (snd (buildCreateInvitePromises env req invite invites data failed0)) ->
  isAnnouncement x = false.
Proof.
  unfold buildCreateInvitePromises.
  set (ps := match Param.userIds invite with Some _ => _ | None => _ end).
  assert (G : forall pushed emails,
             In x (map Create ps ++ LookupUserEmails emails :: map Create pushed) ->
             isAnnouncement x = false).
  { intros pushed emails. rewrite in_app_iff. simpl. rewrite !in_map_iff.
    intros [(d & <- & _)|[<-|(d & <- & _)]]; reflexivity. }
  destruct (Param.emails invite) as [emails|]; simpl.
  2:{ rewrite in_map_iff. now intros (d & <- & _). }
  destruct (lookupUserEmails env emails) as [users|]; [|apply (G [])].
  destruct (filterC _ emails); [|apply (G [])].
  destruct (_removeC _ _); apply G.
Qed.

Lemma build_created req invite invites data failed0 :
  created (snd (buildCreateInvitePromises env req invite invites data failed0))
  = fst (fst (buildCreateInvitePromises env req invite invites data failed0)).
Proof.
  unfold buildCreateInvitePromises.
  set (ps := match Param.userIds invite with Some _ => _ | None => _ end).
  assert (G : forall pushed emails,
             created (map Create ps ++ LookupUserEmails emails :: map Create pushed)
             = ps ++ pushed).
  { intros pushed emails. rewrite created_app, created_map_Create.
    change (LookupUserEmails emails :: map Create pushed)
      with ([LookupUserEmails emails] ++ map Create pushed).
    now rewrite created_app, created_map_Create. }
  destruct (Param.emails invite) as [emails|]; simpl; [|apply created_map_Create].
  destruct (lookupUserEmails env emails) as [users|]; [|apply (G [])].
  destruct (filterC _ emails); [|apply (G [])].
  destruct (_removeC _ _); apply G.
Qed.

(** X8: when the handler answers with a body, the success list is exactly
    the list of the invites handed to [create], and exactly the list of the
    invites emitted, and of those published, each once and in that order. *)
Theorem success_is_created_and_announced req status body effects :
  handler env req = (Json status body, effects) ->
  created effects = success body
  /\ emitted effects = success body
  /\ published effects = success body.
Proof.
  intros H.
  destruct (handler_cases env req)
    as [(err & e0 & _ & E)|(invite & failed0 & effects0 & C & [(err & _ & E)|
         (invites & datas & failed1 & built & _ & B & [(err & _ & E)|(_ & E)])])];
    rewrite E in H; try discriminate.
  injection H as H <-.
  assert (Hs : success body = datas)
    by (unfold respond in H; destruct failed1; now injection H as _ <-).
  assert (Hq0 : forall x, In x effects0 -> isAnnouncement x = false /\ created [x] = []).
  { intros x Hx. apply (check_quiet req). now rewrite C. }
  pose proof (build_created req invite invites (inviteData env req invite) failed0) as Bc.
  pose proof (@build_quiet req invite invites (inviteData env req invite) failed0) as Bq.
  rewrite B in Bc, Bq. simpl in Bc, Bq.
  destruct (emitted_announce (Req.params_projectId req) datas) as [He Hp].
  destruct (quiet_emitted effects0 (fun x Hx => proj1 (Hq0 x Hx))) as [He0 Hp0].
  destruct (quiet_emitted built Bq) as [Heb Hpb].
  rewrite Hs. repeat split.
  - rewrite !created_app, Bc, created_announce, (created_quiet effects0).
    + simpl. now rewrite app_nil_r.
    + intros x Hx. now apply Hq0.
  - rewrite !emitted_app, He, He0, Heb. reflexivity.
  - rewrite !published_app, Hp, Hp0, Hpb. reflexivity.
Qed.

(** X9: when the handler answers [next(err)], whatever the cause, nothing
    has been emitted or published and no invitation mail has been sent. *)
Theorem fatal_is_silent req err effects :
  handler env req = (Next err, effects) ->
  forall x, In x effects -> isAnnouncement x = false.
Proof.
  intros H.
  assert (Hq0 : forall x, In x (snd (check env req)) -> isAnnouncement x = false)
    by (intros x Hx; now apply (check_quiet req)).
  destruct (handler_cases env req)
    as [(err' & e0 & C & E)|(invite & failed0 & effects0 & C & [(err' & _ & E)|
         (invites & datas & failed1 & built & _ & B & [(err' & _ & E)|(_ & E)])])];
    rewrite E in H; rewrite C in Hq0; simpl in Hq0.
  - injection H as _ <-. exact Hq0.
  - injection H as _ <-. intros x Hx.
    apply in_app_iff in Hx as [Hx|[<-|[]]]; auto.
  - injection H as _ <-. intros x Hx.
    pose proof (@build_quiet req invite invites (inviteData env req invite) failed0 x)
      as Bq.
    rewrite B in Bq. simpl in Bq.
    apply in_app_iff in Hx as [Hx|Hx]; auto.
    apply in_app_iff in Hx as [Hx|[<-|[]]]; auto.
  - unfold respond in H. destruct failed1; discriminate.
Qed.

Lemma In_created (d : Invite.t) (l : list Effect) :
  In (Create d) l <-> In d (created l).
Proof.
  unfold created. rewrite in_flat_map. split.
  - intros H. exists (Create d). split; [exact H|now left].
  - intros (x & Hx & Hd). destruct x; simpl in Hd; try contradiction.
    destruct Hd as [->|[]]. exact Hx.
Qed.

(** The invites handed to [create] by the handler are those
    [buildCreateInvitePromises] returns, if it is reached. *)
Lemma created_handler req :
  created (snd (handler env req))
  = match check env req with
    | (Aborted _, _) => []
    | (Proceed invite failed0, _) =>
        match getPendingInvitesForProject env (Req.params_projectId req) with
        | Rejected _ => []
        | Resolved invites =>
            fst (fst (buildCreateInvitePromises env req invite invites
                        (inviteData env req invite) failed0))
        end
    end.
Proof.
  assert (Hq0 : created (snd (check env req)) = []).
  { apply created_quiet. intros x Hx. now apply (check_quiet req). }
  destruct (handler_cases env req)
    as [(err & e0 & C & E)|(invite & failed0 & effects0 & C & [(err & G & E)|
         (invites & datas & failed1 & built & G & B & [(err & _ & E)|(_ & E)])])];
    rewrite E, C in *; simpl in *; rewrite ?G; auto.
  - now rewrite created_app, Hq0.
  - pose proof (build_created req invite invites (inviteData env req invite) failed0)
      as Bc.
    rewrite B in *. simpl in *. now rewrite !created_app, Hq0, Bc.
  - pose proof (build_created req invite invites (inviteData env req invite) failed0)
      as Bc.
    rewrite B in *. simpl in *.
    now rewrite !created_app, Hq0, Bc, created_announce, app_nil_r.
Qed.

(** X10: a rejected [create] is fatal: if one of the invites handed to
    [create] is rejected, the handler answers [next(err)]. *)
Theorem create_rejection_fatal req (d : Invite.t) (e : Error) :
  In (Create d) (snd (handler env req)) ->
  createRejection env d = Some e ->
  exists err, fst (handler env req) = Next err.
Proof.
  intros Hd Hrej. apply In_created in Hd. rewrite created_handler in Hd.
  destruct (handler_cases env req)
    as [(err & e0 & _ & E)|(invite & failed0 & effects0 & C & [(err & _ & E)|
         (invites & datas & failed1 & built & G & B & [(err & _ & E)|(P & E)])])];
    rewrite E; simpl; eauto.
  exfalso. rewrite C, G, B in Hd. simpl in Hd.
  apply Promise_all_map_resolved in P.
  assert (Hall : forall x y, Forall2 (fun a b => create env a = Resolved b) x y ->
                             In d x -> exists b, create env d = Resolved b).
  { clear. intros x y F Hin.
    induction F; [destruct Hin|destruct Hin as [<-|Hin]; eauto]. }
  destruct (Hall _ _ P Hd) as [b Hb]. unfold create in Hb. rewrite Hrej in Hb.
  discriminate.
Qed.

(** The announcements made are those of the success list. *)
Lemma handler_announced req (x : Effect) :
  isAnnouncement x = true ->
  In x (snd (handler env req))
  <-> exists status body,
        fst (handler env req) = Json status body
        /\ In x (flat_map (announce (Req.params_projectId req)) (success body)).
Proof.
  intros Hx.
  assert (Hq0 : ~ In x (snd (check env req))).
  { intros H. apply (check_quiet req) in H as [H _]. congruence. }
  destruct (handler_cases env req)
    as [(err & e0 & C & E)|(invite & failed0 & effects0 & C & [(err & G & E)|
         (invites & datas & failed1 & built & G & B & [(err & _ & E)|(_ & E)])])];
    rewrite E; rewrite C in Hq0; simpl in *.
  - split; [contradiction|]. now intros (st & body & [=] & _).
  - split; [|now intros (st & body & [=] & _)].
    intros H. apply in_app_iff in H as [H|[<-|[]]]; [contradiction|discriminate].
  - split; [|now intros (st & body & [=] & _)].
    pose proof (@build_quiet req invite invites (inviteData env req invite) failed0 x)
      as Bq.
    rewrite B in Bq. simpl in Bq. intros H.
    apply in_app_iff in H as [H|H]; [|apply Bq in H; congruence].
    apply in_app_iff in H as [H|[<-|[]]]; [contradiction|discriminate].
  - pose proof (@build_quiet req invite invites (inviteData env req invite) failed0 x)
      as Bq.
    rewrite B in Bq. simpl in Bq.
    assert (Hs : exists st, respond datas failed1
                            = Json st {| success := datas;
                                         failed := match failed1 with
                                                   | [] => None
                                                   | _ :: _ => Some failed1
                                                   end |})
      by (unfold respond; destruct failed1; eauto).
    destruct Hs as [st Hs]. rewrite Hs. split.
    + intros H. exists st. eexists. split; [reflexivity|]. simpl.
      apply in_app_iff in H as [H|H]; [|exact H].
      apply in_app_iff in H as [H|H]; [|apply Bq in H; congruence].
      apply in_app_iff in H as [H|[<-|[]]]; [contradiction|discriminate].
    + intros (st' & body & [= <- <-] & H). apply in_app_iff. now right.
Qed.

(** X11: an invitation mail is sent for an invite exactly when the handler
    answers with a body, the invite is in the success list, it carries a
    non-empty e-mail, no user id (or the user id 0) and the status
    [PENDING]; the mail is for the project of the request. *)
Theorem invitation_mail_iff req (projectId : Z) (v : Invite.t) :
  In (SendInviteEmail projectId v) (snd (handler env req))
  <-> (exists status body,
          fst (handler env req) = Json status body /\ In v (success body))
      /\ projectId = Req.params_projectId req
      /\ truthyString (Invite.email v) = true
      /\ truthyZ (Invite.userId v) = false
      /\ Invite.status v = PENDING.
Proof.
  rewrite (handler_announced req (SendInviteEmail projectId v) eq_refl).
  split.
  - intros (st & body & E & H). apply announce_In in H as (w & Hw & H).
    destruct H as [[=]|[[=]|([= -> ->] & Hb)]].
    apply andb_true_iff in Hb as [Hb Hp]. apply andb_true_iff in Hb as [He Hu].
    apply negb_true_iff in Hu. repeat split; eauto.
    destruct (Invite.status w); [reflexivity|discriminate].
  - intros ((st & body & E & Hv) & -> & He & Hu & Hs).
    exists st, body. split; [exact E|]. apply announce_In. exists v.
    split; [exact Hv|]. right; right. split; [reflexivity|].
    now rewrite He, Hu, Hs.
Qed.

(** X12: every invite handed to [create] carries the project id and the role
    of the request and names the caller as its creator and last updater. *)
Theorem created_from_request req (d : Invite.t) :
  In (Create d) (snd (handler env req)) ->
  Invite.projectId d = Req.params_projectId req
  /\ Invite.role d = Param.role (Req.body_param req)
  /\ Invite.createdBy d = AuthUser.userId (Req.authUser req)
  /\ Invite.updatedBy d = AuthUser.userId (Req.authUser req).
Proof.
  intros Hd. apply In_created in Hd. rewrite created_handler in Hd.
  destruct (check env req) as [[err|invite failed0] effects0] eqn:C; [destruct Hd|].
  destruct (getPendingInvitesForProject env _) as [invites|]; [|destruct Hd].
  apply build_from_template in Hd as (u & e & ->).
  apply check_role in C. simpl. now rewrite C.
Qed.

End Announcements.

(** ** Who gets invited *)

Section Invited.

Context {K : Constants}.
Variable env : Env.

Implicit Types (req : Req.t) (invite : Param.t) (invites : list Invite.t).

Lemma build_user_fresh req invite invites data failed0 (d : Invite.t) (u : Z) :
  Invite.userId data = None ->
  In d (fst (fst (buildCreateInvitePromises env req invite invites data failed0))) ->
  Invite.userId d = Some u ->
  invitedUserId invites u = false.
Proof.
  intros Hdata. unfold buildCreateInvitePromises. rewrite userId_path.
  set (ps := map (byUserId data) _).
  assert (Hps : In d ps -> Invite.userId d = Some u -> invitedUserId invites u = false).
  { subst ps. rewrite in_map_iff. intros (x & <- & Hx) [= <-].
    now apply In_remove in Hx. }
  assert (Hex : forall users,
             In d (map (byExistentUser data)
                       (_remove (fun user => invitedUserId invites (User.id user)) users)) ->
             Invite.userId d = Some u -> invitedUserId invites u = false).
  { intros users. rewrite in_map_iff. intros (x & <- & Hx) [= <-].
    now apply In_remove in Hx. }
  assert (Hem : forall es, In d (map (byEmail data) es) -> Invite.userId d = Some u ->
                           invitedUserId invites u = false).
  { intros es. rewrite in_map_iff. intros (x & <- & _). simpl. congruence. }
  destruct (Param.emails invite) as [emails|]; simpl; auto.
  destruct (lookupUserEmails env emails) as [users|]; simpl;
    [|rewrite app_nil_r; auto].
  destruct (filterC _ emails); simpl; [|rewrite app_nil_r; auto].
  destruct (_removeC _ _) eqn:R; simpl; rewrite !in_app_iff; intuition eauto.
Qed.

Lemma build_email_only req invite invites data failed0 (d : Invite.t) :
  In d (fst (fst (buildCreateInvitePromises env req invite invites data failed0))) ->
  Invite.userId d = None ->
  exists es users e,
    Param.emails invite = Some es
    /\ lookupUserEmails env es = Resolved users
    /\ In e es
    /\ d = byEmail data e
    /\ (forall user, In user users ->
          compareEmail (User.email user) (Some e) gmailOff = Return false)
    /\ (forall i, In i invites ->
          compareEmail (Invite.email i) (Some e) (configured env) = Return false).
Proof.
  unfold buildCreateInvitePromises. rewrite userId_path.
  set (ps := map (byUserId data) _).
  assert (Hps : In d ps -> Invite.userId d = None -> False).
  { subst ps. rewrite in_map_iff. intros (x & <- & Hx). discriminate. }
  assert (Hex : forall users, In d (map (byExistentUser data) users) ->
                              Invite.userId d = None -> False).
  { intros users. rewrite in_map_iff. intros (x & <- & Hx). discriminate. }
  destruct (Param.emails invite) as [emails|]; simpl; [|intros H H'; exfalso; eauto].
  destruct (lookupUserEmails env emails) as [users|] eqn:L; simpl;
    [|rewrite app_nil_r; intros H H'; exfalso; eauto].
  destruct (filterC _ emails) as [nonExistent|] eqn:F; simpl;
    [|rewrite app_nil_r; intros H H'; exfalso; eauto].
  unfold _removeC.
  destruct (filterC (fun x => notC (invitedEmail env invites x)) nonExistent)
    as [remaining|] eqn:R; simpl; rewrite !in_app_iff.
  - intros [H|[H|H]] Hn; [exfalso; eauto|exfalso; eauto|].
    apply in_map_iff in H as (e & <- & He).
    apply (filterC_In _ _ R) in He as [He Hi].
    apply (filterC_In _ _ F) in He as [He Hx].
    exists emails, users, e. repeat split; auto.
    + now apply isNonExistent_true.
    + apply notC_true in Hi. unfold invitedEmail in Hi.
      now rewrite _some_false_iff in Hi.
  - intros [H|H] Hn; exfalso; eauto.
Qed.

(** X13: the handler never hands to [create] an invite for a user id that
    has a pending invitation already, whether the user id comes from the
    request or from an account found for an e-mail. *)
Theorem never_reinvites_user req invites (d : Invite.t) (u : Z) :
  getPendingInvitesForProject env (Req.params_projectId req) = Resolved invites ->
  In (Create d) (snd (handler env req)) ->
  Invite.userId d = Some u ->
  invitedUserId invites u = false.
Proof.
  intros G Hd Hu. apply In_created in Hd. rewrite created_handler, G in Hd.
  destruct (check env req) as [[err|invite failed0] effects0]; [destruct Hd|].
  now apply (build_user_fresh req invite invites (inviteData env req invite) failed0 d).
Qed.

(** X14: an invite without user id is created only for the customer role
    and for an e-mail of the request, in lower case, that is the address of
    no account found (case-insensitive comparison) and that no pending
    invitation matches under the configured comparison. *)
Theorem email_only_invite_sound req invites (d : Invite.t) :
  getPendingInvitesForProject env (Req.params_projectId req) = Resolved invites ->
  In (Create d) (snd (handler env req)) ->
  Invite.userId d = None ->
  Param.role (Req.body_param req) = CUSTOMER
  /\ exists es users e,
       Param.emails (Req.body_param req) = Some es
       /\ lookupUserEmails env es = Resolved users
       /\ In e es
       /\ Invite.email d = Some (Js.toLowerCase e)
       /\ (forall user, In user users ->
             compareEmail (User.email user) (Some e) gmailOff = Return false)
       /\ (forall i, In i invites ->
             compareEmail (Invite.email i) (Some e) (configured env) = Return false).
Proof.
  intros G Hd Hu. apply In_created in Hd. rewrite created_handler, G in Hd.
  destruct (check env req) as [[err|invite failed0] effects0] eqn:C; [destruct Hd|].
  apply build_email_only in Hd as (es & users & e & He & L & Hin & -> & Hx & Hi); auto.
  pose proof (check_emails _ _ C He) as He'.
  split.
  - destruct (String.eqb (Param.role (Req.body_param req)) CUSTOMER) eqn:E.
    + now apply String.eqb_eq.
    + apply String.eqb_neq in E. rewrite (check_emails_cleared _ _ C E) in He.
      discriminate.
  - exists es, users, e. repeat split; auto.
Qed.

End Invited.

(** ** What is reported and what is looked up *)

Section Reported.

Context {K : Constants}.
Variable env : Env.

Implicit Types (req : Req.t) (invite : Param.t) (invites : list Invite.t).

Lemma respond_body (values : list Invite.t) (failed1 : list Failure.t)
      (status : Z) (body : Body) :
  respond values failed1 = Json status body ->
  success body = values /\ candidates (failed body) = failed1.
Proof.
  unfold respond. destruct failed1; intros [= <- <-]; now split.
Qed.

Lemma build_failed req invite invites data failed0 :
  let failed1 :=
    snd (fst (buildCreateInvitePromises env req invite invites data failed0)) in
  failed1 = failed0
  \/ exists es error,
       Param.emails invite = Some es
       /\ failed1 = failed0 ++ map (lookupFailure error) es.
Proof.
  unfold buildCreateInvitePromises.
  destruct (Param.emails invite) as [emails|]; simpl; [|now left].
  destruct (lookupUserEmails env emails) as [users|error]; simpl;
    [|right; now exists emails, (Rejection error)].
  destruct (filterC _ emails) as [|error]; simpl; [|right; now exists emails, error].
  destruct (_removeC _ _) as [|error]; simpl; [now left|right; now exists emails, error].
Qed.

Lemma build_lookups req invite invites data failed0 (x : Effect) :
  In x (snd (buildCreateInvitePromises env req invite invites data failed0)) ->
  (exists d, x = Create d)
  \/ exists es, x = LookupUserEmails es /\ Param.emails invite = Some es.
Proof.
  unfold buildCreateInvitePromises.
  set (ps := match Param.userIds invite with Some _ => _ | None => _ end).
  destruct (Param.emails invite) as [emails|]; simpl.
  2:{ rewrite in_map_iff. intros (d & <- & _). left. now exists d. }
  assert (G : forall pushed,
             In x (map Create ps ++ LookupUserEmails emails :: map Create pushed) ->
             (exists d, x = Create d)
             \/ exists es, x = LookupUserEmails es /\ Some emails = Some es).
  { intros pushed. rewrite in_app_iff. simpl. rewrite !in_map_iff.
    intros [(d & <- & _)|[<-|(d & <- & _)]]; eauto. }
  destruct (lookupUserEmails env emails) as [users|]; [|apply (G [])].
  destruct (filterC _ emails); [|apply (G [])].
  destruct (_removeC _ _); apply G.
Qed.

Lemma inviteData_role req invite invite' :
  Param.role invite = Param.role invite' ->
  inviteData env req invite = inviteData env req invite'.
Proof. unfold inviteData. now intros ->. Qed.

(** X15: every entry of the failed list names a candidate of the request
    and nothing else: either an e-mail of the request, rejected because the
    role is not the customer role or because the look-up chain failed, or a
    user id of the request that is not a member and whose fetched roles do
    not intersect [MANAGER_ROLES], the role asked for being a manager-tier
    role. *)
Theorem failures_name_candidates req status body effects (f : Failure.t) :
  handler env req = (Json status body, effects) ->
  In f (candidates (failed body)) ->
  (exists e,
      In e (candidates (Param.emails (Req.body_param req)))
      /\ ((Param.role (Req.body_param req) <> CUSTOMER /\ f = emailRoleFailure e)
          \/ (Param.role (Req.body_param req) = CUSTOMER
              /\ exists error, f = lookupFailure error e)))
  \/ (exists u,
         In u (nonMembers req)
         /\ includes PROJECT_MEMBER_MANAGER_ROLES (Param.role (Req.body_param req)) = true
         /\ lacksManagerRole env u = true
         /\ f = managerFailure (Some u)).
Proof.
  intros H Hf.
  apply handler_json in H as (invite & failed0 & effects0 & invites & C & G & _ & R).
  cbv zeta in R. symmetry in R. apply respond_body in R as [_ R]. rewrite R in Hf.
  pose proof (check_proceed env req C) as (_ & Hem & _ & Hf0 & _). cbv zeta in *.
  assert (H0 : In f failed0 ->
               (exists e,
                   In e (candidates (Param.emails (Req.body_param req)))
                   /\ ((Param.role (Req.body_param req) <> CUSTOMER
                        /\ f = emailRoleFailure e)
                       \/ (Param.role (Req.body_param req) = CUSTOMER
                           /\ exists error, f = lookupFailure error e)))
               \/ (exists u,
                      In u (nonMembers req)
                      /\ includes PROJECT_MEMBER_MANAGER_ROLES
                                  (Param.role (Req.body_param req)) = true
                      /\ lacksManagerRole env u = true
                      /\ f = managerFailure (Some u))).
  { rewrite Hf0, in_app_iff. intros [Hin|Hin].
    - destruct (String.eqb _ CUSTOMER) eqn:E; [destruct Hin|].
      apply String.eqb_neq in E. apply in_map_iff in Hin as (e & <- & He).
      left. exists e. auto.
    - destruct (includes _ _) eqn:M; [|destruct Hin].
      apply in_map_iff in Hin as (u & <- & Hu). apply filter_In in Hu as [Hu Hl].
      right. exists u. auto. }
  destruct (build_failed req invite invites (inviteData env req invite) failed0)
    as [E|(es & error & He & E)]; cbv zeta in E; rewrite E in Hf; auto.
  apply in_app_iff in Hf as [Hf|Hf]; auto.
  apply in_map_iff in Hf as (e & <- & Hin). left. exists e.
  rewrite He in Hem.
  destruct (String.eqb (Param.role (Req.body_param req)) CUSTOMER) eqn:Ec;
    [|discriminate].
  rewrite <- Hem. split; [exact Hin|]. right. split; [now apply String.eqb_eq|].
  now exists error.
Qed.

(** X16: the collaborators are asked no more than the request needs.  Roles
    are fetched only for a manager-tier role and only for user ids of the
    request that are not members; accounts are looked up only for the customer
    role, with the e-mails of the request; pending invitations are read for
    the project of the request only. *)
Theorem lookups_are_needed req (x : Effect) :
  In x (snd (handler env req)) ->
  match x with
  | GetUserRoles u =>
      includes PROJECT_MEMBER_MANAGER_ROLES (Param.role (Req.body_param req)) = true
      /\ In u (nonMembers req)
  | LookupUserEmails es =>
      Param.role (Req.body_param req) = CUSTOMER
      /\ Param.emails (Req.body_param req) = Some es
  | GetPendingInvitesForProject projectId => projectId = Req.params_projectId req
  | _ => True
  end.
Proof.
  assert (H0 : forall y, In y (snd (check env req)) ->
                 exists u, y = GetUserRoles u
                   /\ includes PROJECT_MEMBER_MANAGER_ROLES
                               (Param.role (Req.body_param req)) = true
                   /\ In u (nonMembers req)).
  { intros y. destruct (check_effects env req) as [-> | ->]; [intros []|].
    unfold roleLookups, nonMembers.
    destruct (Param.userIds (Req.body_param req)); simpl; [|intros []].
    destruct (includes _ _); [|intros []].
    rewrite in_map_iff. intros (u & <- & Hu). eauto. }
  assert (HB : forall invite failed0 effects0 invites,
             check env req = (Proceed invite failed0, effects0) ->
             In x (snd (buildCreateInvitePromises env req invite invites
                          (inviteData env req invite) failed0)) ->
             match x with
             | GetUserRoles u =>
                 includes PROJECT_MEMBER_MANAGER_ROLES
                          (Param.role (Req.body_param req)) = true
                 /\ In u (nonMembers req)
             | LookupUserEmails es =>
                 Param.role (Req.body_param req) = CUSTOMER
                 /\ Param.emails (Req.body_param req) = Some es
             | GetPendingInvitesForProject projectId =>
                 projectId = Req.params_projectId req
             | _ => True
             end).
  { intros invite failed0 effects0 invites C Hx.
    apply build_lookups in Hx as [(d & ->)|(es & -> & He)]; [exact I|].
    split; [|exact (check_emails _ _ C He)].
    destruct (String.eqb (Param.role (Req.body_param req)) CUSTOMER) eqn:E.
    - now apply String.eqb_eq.
    - apply String.eqb_neq in E. rewrite (check_emails_cleared _ _ C E) in He.
      discriminate. }
  assert (HC : forall y, In y (snd (check env req)) -> y = x ->
                 match x with
                 | GetUserRoles u =>
                     includes PROJECT_MEMBER_MANAGER_ROLES
                              (Param.role (Req.body_param req)) = true
                     /\ In u (nonMembers req)
                 | LookupUserEmails es =>
                     Param.role (Req.body_param req) = CUSTOMER
                     /\ Param.emails (Req.body_param req) = Some es
                 | GetPendingInvitesForProject projectId =>
                     projectId = Req.params_projectId req
                 | _ => True
                 end).
  { intros y Hy <-. destruct (H0 y Hy) as (u & -> & Hm & Hu). now split. }
  intros Hx.
  destruct (handler_cases env req)
    as [(err & e0 & C & E)|(invite & failed0 & effects0 & C & [(err & G & E)|
         (invites & datas & failed1 & built & G & B & [(err & _ & E)|(_ & E)])])];
    rewrite E in Hx; rewrite C in HC; simpl in Hx, HC.
  - now apply (HC x).
  - apply in_app_iff in Hx as [Hx|[<-|[]]]; [now apply (HC x)|reflexivity].
  - specialize (HB invite failed0 effects0 invites C). rewrite B in HB.
    apply in_app_iff in Hx as [Hx|Hx]; [|now apply HB].
    apply in_app_iff in Hx as [Hx|[<-|[]]]; [now apply (HC x)|reflexivity].
  - specialize (HB invite failed0 effects0 invites C). rewrite B in HB.
    apply in_app_iff in Hx as [Hx|Hx].
    + apply in_app_iff in Hx as [Hx|Hx]; [|now apply HB].
      apply in_app_iff in Hx as [Hx|[<-|[]]]; [now apply (HC x)|reflexivity].
    + apply announce_In in Hx as (v & _ & [->|[->|[-> _]]]); exact I.
Qed.

(** X17: the user-id path end to end.  When the request has no e-mails, or
    asks for a role other than the customer role, and the handler answers
    with a body, the success list holds one invite per user id of the request,
    in request order and with repetitions, leaving out the members of the
    project, then (for a manager-tier role) the users whose fetched roles do
    not intersect [MANAGER_ROLES], then the users with a pending
    invitation. *)
Theorem user_id_path_end_to_end req invites status body effects :
  handler env req = (Json status body, effects) ->
  getPendingInvitesForProject env (Req.params_projectId req) = Resolved invites ->
  Param.emails (Req.body_param req) = None
  \/ Param.role (Req.body_param req) <> CUSTOMER ->
  success body
  = map (fun u => withIdentity (inviteData env req (Req.body_param req)) (Some u) None)
        (_remove (invitedUserId invites)
           (if includes PROJECT_MEMBER_MANAGER_ROLES (Param.role (Req.body_param req))
            then filter (fun u => negb (lacksManagerRole env u)) (nonMembers req)
            else nonMembers req)).
Proof.
  intros H G Hno.
  apply handler_json in H as (invite & failed0 & effects0 & invites' & C & G' & _ & R).
  rewrite G in G'. injection G' as <-.
  cbv zeta in R. symmetry in R. apply respond_body in R as [R _]. rewrite R.
  pose proof (check_proceed env req C) as (Hrole & Hem & Hids & _). cbv zeta in *.
  assert (He : Param.emails invite = None).
  { rewrite Hem. destruct Hno as [->|Hr]; [now destruct (String.eqb _ _)|].
    apply String.eqb_neq in Hr. now rewrite Hr. }
  unfold buildCreateInvitePromises. rewrite He, userId_path. simpl.
  rewrite (inviteData_role req invite (Req.body_param req) Hrole).
  rewrite Hids. unfold nonMembers.
  destruct (Param.userIds (Req.body_param req)); simpl; [reflexivity|].
  now destruct (includes _ _).
Qed.

(** X18: a request with neither user ids nor e-mails is answered
    [next(err)] with status 400, whoever the caller and whatever the role,
    and no collaborator is called. *)
Theorem missing_candidates_rejected req :
  Param.userIds (Req.body_param req) = None ->
  Param.emails (Req.body_param req) = None ->
  handler env req
  = (Next {| err_status := Some 400;
             err_message := "Either userIds or emails are required";
             err_statusText := None |},
     []).
Proof.
  intros Hu He. unfold handler, check. now rewrite Hu, He.
Qed.

End Reported.

(** ** The invitation mail *)

Section Mail.

Context {K : Constants}.
Variable env : Env.
Variable config : MailConfig.
Variable world : MailWorld.

Implicit Types (req : Req.t) (invite : Param.t) (invites : list Invite.t).

(** X19: [sendInviteEmail] creates at most one event, and creates it exactly
    when the project is found and both of its look-ups resolve; in every
    other case (a rejected look-up, no such project) it logs one error and
    creates nothing. *)
Theorem sendInviteEmail_event_iff (authUser : AuthUser.t) (projectId : Z)
        (v : Invite.t) :
  let effects := sendInviteEmail config world authUser projectId v in
  (length (eventsOf effects) <= 1)%nat
  /\ (eventsOf effects <> []
      <-> exists project details,
            findProject world projectId = Resolved (Some project)
            /\ getMemberDetailsByUserIds world (AuthUser.userId authUser)
               = Resolved details)
  /\ (eventsOf effects = [] <-> exists error, In (LogError error) effects).
Proof.
  unfold sendInviteEmail.
  destruct (findProject world projectId) as [[project|]|e1];
    destruct (getMemberDetailsByUserIds world _) as [details|e2]; simpl;
    repeat split; auto; intros H;
    try (now destruct H as (p & d & [=] & _));
    try (now destruct H as (p & d & _ & [=]));
    try congruence; try discriminate;
    try (now eexists; right; right; left);
    try (exfalso; destruct H as [error [[=]|[[=]|[[=]|[]]]]]).
  - now exists project, details.
Qed.

Lemma build_email_lower req invite invites data failed0 (d : Invite.t) (x : string) :
  Invite.email data = None ->
  In d (fst (fst (buildCreateInvitePromises env req invite invites data failed0))) ->
  Invite.email d = Some x ->
  Js.toLowerCase x = x.
Proof.
  intros Hdata. unfold buildCreateInvitePromises. rewrite userId_path.
  set (ps := map (byUserId data) _).
  assert (Hps : In d ps -> Invite.email d = Some x -> Js.toLowerCase x = x).
  { subst ps. rewrite in_map_iff. intros (u & <- & _). simpl. congruence. }
  assert (Hex : forall users, In d (map (byExistentUser data) users) ->
                              Invite.email d = Some x -> Js.toLowerCase x = x).
  { intros users. rewrite in_map_iff. intros (u & <- & _). simpl.
    destruct (User.email u); simpl; intros [= <-].
    apply toLowerCase_idempotent. }
  assert (Hem : forall es, In d (map (byEmail data) es) ->
                           Invite.email d = Some x -> Js.toLowerCase x = x).
  { intros es. rewrite in_map_iff. intros (e & <- & _). simpl. intros [= <-].
    apply toLowerCase_idempotent. }
  destruct (Param.emails invite) as [emails|]; simpl; auto.
  destruct (lookupUserEmails env emails) as [users|]; simpl;
    [|rewrite app_nil_r; auto].
  destruct (filterC _ emails); simpl; [|rewrite app_nil_r; auto].
  destruct (_removeC _ _); simpl; rewrite !in_app_iff; intuition eauto.
Qed.

(** X20: every event created by an invitation mail that the handler sends
    has exactly one recipient, a non-empty address in lower case, and names
    the project of the request. *)
Theorem invitation_mail_recipient req (projectId : Z) (v : Invite.t)
        (event : MailEvent) :
  In (SendInviteEmail projectId v) (snd (handler env req)) ->
  In event (eventsOf (sendInviteEmail config world (Req.authUser req) projectId v)) ->
  (exists address,
      recipients event = [Some address]
      /\ address <> EmptyString
      /\ Js.toLowerCase address = address)
  /\ project_projectId event = Req.params_projectId req
  /\ section_projectId event = Req.params_projectId req.
Proof.
  intros Hs Hev.
  apply (handler_announced env req (SendInviteEmail projectId v) eq_refl) in Hs
    as (st & body & E & Hs).
  apply announce_In in Hs as (w & Hw & [[=]|[[=]|([= -> ->] & Hb)]]).
  apply andb_true_iff in Hb as [Hb _]. apply andb_true_iff in Hb as [He _].
  assert (Hlow : forall x, Invite.email w = Some x -> Js.toLowerCase x = x).
  { destruct (handler_cases env req)
      as [(err & e0 & C & E')|(invite & failed0 & effects0 & C & [(err & G & E')|
           (invites & datas & failed1 & built & G & B & [(err & _ & E')|(_ & E')])])];
      rewrite E' in E; simpl in E; try discriminate.
    apply respond_body in E as [E _]. rewrite E in Hw.
    pose proof (@build_email_lower req invite invites (inviteData env req invite)
                  failed0 w) as L.
    rewrite B in L. simpl in L. intros x Hx. now apply (L x). }
  unfold sendInviteEmail in Hev.
  destruct (findProject world (Req.params_projectId req)) as [[project|]|e1];
    destruct (getMemberDetailsByUserIds world (AuthUser.userId (Req.authUser req)))
      as [details|e2];
    simpl in Hev; try contradiction.
  destruct Hev as [<-|[]]. simpl. repeat split.
  destruct (Invite.email w) as [x|]; [|discriminate He].
  exists x. repeat split; auto.
  intros ->. discriminate He.
Qed.

End Mail.

(** * Concrete runs *)

Section Runs.

Import Sample.
#[local] Existing Instance constants.

(** C1 (counterexample): a user id given twice in one request yields two
    invites for the same project and user in one invocation. *)
Lemma duplicate_user_id_two_invites :
  fst (run fresh (request [] (Some [7; 7]) None "customer" []))
  = Json 201 {| success := [invite (Some 7) None "customer" PENDING;
                            invite (Some 7) None "customer" PENDING];
                failed := None |}
  /\ ~ NoDup (map (fun r => (Invite.projectId r, Invite.userId r))
                 [invite (Some 7) None "customer" PENDING;
                  invite (Some 7) None "customer" PENDING]).
Proof.
  split; [reflexivity|]. intros H. inversion H as [|x l Hin _]; subst.
  apply Hin. now left.
Qed.

(** The same happens with an e-mail given twice up to case. *)
Example duplicate_email_two_invites :
  fst (run fresh (request [] None (Some ["a@x.com"; "A@x.com"]) "customer" []))
  = Json 201 {| success := [invite None (Some "a@x.com") "customer" PENDING;
                            invite None (Some "a@x.com") "customer" PENDING];
                failed := None |}.
Proof. reflexivity. Qed.

(** Nor does it take a repetition: a user id and the address of the same
    account give two invites for that user. *)
Example user_id_and_own_address_two_invites :
  fst (run (bobKnown []) (request [] (Some [9]) (Some ["bob@x.com"]) "customer" []))
  = Json 201 {| success := [invite (Some 9) None "customer" PENDING;
                            invite (Some 9) (Some "bob@x.com") "customer" PENDING];
                failed := None |}.
Proof. reflexivity. Qed.

(** Repetitions are not always doubled, though: the address of a known
    account given twice gives one invite, since the accounts found, not the
    addresses, are invited. *)
Example registered_address_twice_one_invite :
  fst (run (bobKnown []) (request [] None (Some ["bob@x.com"; "bob@x.com"])
                                  "customer" []))
  = Json 201 {| success := [invite (Some 9) (Some "bob@x.com") "customer" PENDING];
                failed := None |}.
Proof. reflexivity. Qed.

(** With alias canonicalisation on, an address with a [+] that was invited by
    a first invocation makes the second, identical invocation report a
    failure for it: the comparison with the pending invitation throws. *)
Example second_invocation_plus_address :
  let req := request [] None (Some ["john+work@gmail.com"]) "customer" [] in
  let created := invite None (Some "john+work@gmail.com") "customer" PENDING in
  fst (run (world noRoles (Resolved []) [] true) req)
  = Json 201 {| success := [created]; failed := None |}
  /\ fst (run (world noRoles (Resolved []) [created] true) req)
     = Json 403 {| success := [];
                   failed := Some [{| Failure.userId := None;
                                      Failure.email := Some "john+work@gmail.com";
                                      Failure.message := None |}] |}.
Proof. split; reflexivity. Qed.

(** With alias canonicalisation on, a pending invitation for a gmail address
    written with two dots does not prevent a new invite for the same address
    written without dots. *)
Example two_dot_alias_invited_again :
  fst (run (world noRoles (Resolved [])
                  [invite None (Some "j.o.e@gmail.com") "customer" PENDING] true)
           (request [] None (Some ["joe@gmail.com"]) "customer" []))
  = Json 201 {| success := [invite None (Some "joe@gmail.com") "customer" PENDING];
                failed := None |}.
Proof. reflexivity. Qed.

(** A run of [second_invocation_idempotent], with alias canonicalisation on:
    a user id, the address of a known account and a gmail address. *)
Lemma second_invocation_idempotent_run :
  run (bobKnown []) customerRequest
  = (Json 201 {| success := customerCreated; failed := None |},
     snd (run (bobKnown []) customerRequest))
  /\ (forall e i, In e ["bob@X.com"; "jo.doe@gmail.com"] -> In i customerCreated ->
                  returns (compareEmail (Invite.email i) (Some e) gmailOn))
  /\ (forall e, In e ["bob@X.com"; "jo.doe@gmail.com"] ->
                compareEmail (Some (Js.toLowerCase e)) (Some e) gmailOn = Return true)
  /\ fst (run (withPendingInvites (bobKnown []) customerCreated) customerRequest)
     = Json 201 {| success := []; failed := None |}
  /\ forall d,
       ~ In (Create d)
            (snd (run (withPendingInvites (bobKnown []) customerCreated)
                      customerRequest)).
Proof.
  assert (H1 : run (bobKnown []) customerRequest
               = (Json 201 {| success := customerCreated; failed := None |},
                  snd (run (bobKnown []) customerRequest))) by reflexivity.
  assert (H2 : forall e i, In e ["bob@X.com"; "jo.doe@gmail.com"] ->
                 In i customerCreated ->
                 returns (compareEmail (Invite.email i) (Some e) gmailOn)).
  { intros e i [<-|[<-|[]]] [<-|[<-|[<-|[]]]]; eexists; reflexivity. }
  assert (H3 : forall e, In e ["bob@X.com"; "jo.doe@gmail.com"] ->
                 compareEmail (Some (Js.toLowerCase e)) (Some e) gmailOn = Return true).
  { intros e [<-|[<-|[]]]; reflexivity. }
  refine (conj H1 (conj H2 (conj H3 _))).
  exact (@second_invocation_idempotent constants (bobKnown []) customerRequest []
           customerCreated 201 {| success := customerCreated; failed := None |} _
           eq_refl H1 (fun i (F : In i []) => match F with end) (fun r H => H)
           (or_intror (conj H2 H3))).
Defined.

(** C4 (counterexample): the request is aborted when the caller holds no
    manager-tier role; when the caller holds one, the message of the entries
    starts with a capital letter. *)
Lemma email_restriction_gate_and_message :
  run fresh (request [] None (Some ["a@x.com"]) "manager" [])
  = (Next {| err_status := Some 403;
             err_message := "You are not allowed to invite user as manager";
             err_statusText := None |}, [])
  /\ fst (run fresh (request ["Connect Manager"] None (Some ["a@x.com"]) "manager" []))
     = Json 403 {| success := [];
                   failed := Some [{| Failure.userId := None;
                                      Failure.email := Some "a@x.com";
                                      Failure.message :=
                                        Some "Emails can only be used for customer" |}] |}
  /\ "Emails can only be used for customer" <> "emails can only be used for customer".
Proof. repeat split. discriminate. Qed.

(** A run of [email_role_restriction]: two user ids and an e-mail for the
    manager role. *)
Lemma email_role_restriction_run :
  Param.emails (Req.body_param mixedRequest) = Some ["a@x.com"]
  /\ ["a@x.com"] <> []
  /\ "manager" <> "customer"
  /\ intersects ["Connect Manager"] MANAGER_ROLES = true
  /\ (forall d, In (Create d) (snd (run managerWorld mixedRequest)) ->
                Invite.email d = None)
  /\ run managerWorld mixedRequest
     = (match fst (run managerWorld (withoutEmails mixedRequest)) with
        | Next err => Next err
        | Json _ body =>
            Json 403
              {| success := success body;
                 failed :=
                   Some ([{| Failure.userId := None;
                             Failure.email := Some "a@x.com";
                             Failure.message :=
                               Some "Emails can only be used for customer" |}]
                         ++ candidates (failed body)) |}
        end,
        snd (run managerWorld (withoutEmails mixedRequest))).
Proof.
  assert (H1 : Param.emails (Req.body_param mixedRequest) = Some ["a@x.com"])
    by reflexivity.
  assert (H2 : ["a@x.com"] <> []) by discriminate.
  assert (H3 : "manager" <> "customer") by discriminate.
  assert (H4 : intersects ["Connect Manager"] MANAGER_ROLES = true) by reflexivity.
  refine (conj H1 (conj H2 (conj H3 (conj H4 _)))).
  exact (@email_role_restriction constants managerWorld mixedRequest ["a@x.com"]
           H1 H2 H3 H4).
Defined.

(** C5 (counterexample): the message of the entry for the rejected user
    spells the role with a capital letter. *)
Lemma manager_failure_message :
  fst (run managerWorld managerRequest)
  = Json 403
      {| success := [invite (Some 1) None "manager" PENDING];
         failed :=
           Some [{| Failure.userId := Some 2;
                    Failure.email := None;
                    Failure.message :=
                      Some "cannot be added with a Manager role to the project" |}] |}
  /\ "cannot be added with a Manager role to the project"
     <> "cannot be added with a manager role to the project".
Proof. split; [reflexivity|discriminate]. Qed.

(** A run of [manager_authorization]. *)
Lemma manager_authorization_run :
  getUserRoles managerWorld 1 = Resolved ["Connect Manager"]
  /\ getUserRoles managerWorld 2 = Resolved ["Topcoder User"]
  /\ hasIntersection managerWorld MANAGER_ROLES ["Connect Manager"] = true
  /\ hasIntersection managerWorld MANAGER_ROLES ["Topcoder User"] = false
  /\ run managerWorld managerRequest
     = (Json 403
          {| success := [invite (Some 1) None "manager" PENDING];
             failed :=
               Some [{| Failure.userId := Some 2;
                        Failure.email := None;
                        Failure.message :=
                          Some "cannot be added with a Manager role to the project" |}] |},
        [GetUserRoles 1; GetUserRoles 2; GetPendingInvitesForProject 1;
         Create (invite (Some 1) None "manager" PENDING);
         Emit (invite (Some 1) None "manager" PENDING);
         Publish (invite (Some 1) None "manager" PENDING)]).
Proof.
  refine (conj eq_refl (conj eq_refl (conj eq_refl (conj eq_refl _)))).
  exact (@manager_authorization constants managerWorld managerRequest 1 2
           ["Connect Manager"] ["Topcoder User"] []
           eq_refl eq_refl eq_refl eq_refl eq_refl eq_refl eq_refl eq_refl
           eq_refl eq_refl eq_refl eq_refl eq_refl).
Defined.

(** A run of [status_rule]: the copilot invited by a Connect manager. *)
Lemma status_rule_run :
  run fresh copilotRequest
  = (fst (run fresh copilotRequest), snd (run fresh copilotRequest))
  /\ In (Create (invite (Some 7) None "copilot" REQUESTED))
        (snd (run fresh copilotRequest))
  /\ (Invite.status (invite (Some 7) None "copilot" REQUESTED) = REQUESTED
      <-> "copilot" = COPILOT
          /\ intersects ["Connect Manager"] [CONNECT_ADMIN; COPILOT_MANAGER] = false)
  /\ (Invite.status (invite (Some 7) None "copilot" REQUESTED) = PENDING
      <-> ~ ("copilot" = COPILOT
             /\ intersects ["Connect Manager"] [CONNECT_ADMIN; COPILOT_MANAGER]
                = false)).
Proof.
  assert (H1 : run fresh copilotRequest
               = (fst (run fresh copilotRequest), snd (run fresh copilotRequest)))
    by reflexivity.
  assert (H2 : In (Create (invite (Some 7) None "copilot" REQUESTED))
                  (snd (run fresh copilotRequest)))
    by (right; left; reflexivity).
  refine (conj H1 (conj H2 _)).
  exact (@status_rule constants fresh copilotRequest _ _
           (invite (Some 7) None "copilot" REQUESTED) H1 (or_introl H2)).
Defined.

(** A run of [email_lookup_failure_isolated]. *)
Lemma email_lookup_failure_isolated_run :
  check lookupRejected (request [] (Some [7]) (Some ["a@x.com"]) "customer" [])
  = (Proceed userAndEmail [], [])
  /\ lookupUserEmails lookupRejected ["a@x.com"] = Rejected lookupDown
  /\ run lookupRejected (request [] (Some [7]) (Some ["a@x.com"]) "customer" [])
     = (Json 403
          {| success := [invite (Some 7) None "customer" PENDING];
             failed :=
               Some [{| Failure.userId := None;
                        Failure.email := Some "a@x.com";
                        Failure.message := Some "Service Unavailable" |}] |},
        [GetPendingInvitesForProject 1;
         Create (invite (Some 7) None "customer" PENDING);
         LookupUserEmails ["a@x.com"];
         Emit (invite (Some 7) None "customer" PENDING);
         Publish (invite (Some 7) None "customer" PENDING)]).
Proof.
  assert (H1 : check lookupRejected
                 (request [] (Some [7]) (Some ["a@x.com"]) "customer" [])
               = (Proceed userAndEmail [], [])) by reflexivity.
  assert (H2 : lookupUserEmails lookupRejected ["a@x.com"] = Rejected lookupDown)
    by reflexivity.
  refine (conj H1 (conj H2 _)).
  exact (@email_lookup_failure_isolated constants lookupRejected
           (request [] (Some [7]) (Some ["a@x.com"]) "customer" [])
           userAndEmail [] [] [] ["a@x.com"] lookupDown
           H1 eq_refl (fun E => match E with end) eq_refl H2 (fun d _ => eq_refl)).
Defined.

(** C8 (counterexample): the address of a known account is invited again,
    now with the account's id, although a pending invitation carries the very
    same address: the registered candidate is compared with the pending
    invitations by user id only. *)
Lemma registered_candidate_reinvited :
  compareEmail (Some "a@x.com") (Some "a@x.com") gmailOff = Return true
  /\ fst (run (world noRoles (Resolved [User.mk 9 (Some "a@x.com")])
                   [invite None (Some "a@x.com") "customer" PENDING] false)
              (request [] None (Some ["a@x.com"]) "customer" []))
     = Json 201 {| success := [invite (Some 9) (Some "a@x.com") "customer" PENDING];
                   failed := None |}.
Proof. split; reflexivity. Qed.

(** A run of [email_path_materialisation], alias canonicalisation on: Bob is
    registered, [jo.doe@gmail.com] is invited already under another spelling,
    [new@x.com] is unknown. *)
Lemma email_path_materialisation_run :
  lookupUserEmails aliasInvited ["bob@X.com"; "jo.doe@gmail.com"; "new@x.com"]
  = Resolved [User.mk 9 (Some "Bob@x.com")]
  /\ (forall e i,
        In e ["bob@X.com"; "jo.doe@gmail.com"; "new@x.com"] ->
        In i [invite None (Some "jodoe@gmail.com") "customer" PENDING] ->
        returns (compareEmail (Invite.email i) (Some e) gmailOn))
  /\ In (invite (Some 9) (Some "bob@x.com") "customer" PENDING)
        (fst (fst (buildCreateInvitePromises aliasInvited plainRequest threeEmails
                     [invite None (Some "jodoe@gmail.com") "customer" PENDING]
                     (inviteData aliasInvited plainRequest threeEmails) [])))
  /\ In (invite None (Some "new@x.com") "customer" PENDING)
        (fst (fst (buildCreateInvitePromises aliasInvited plainRequest threeEmails
                     [invite None (Some "jodoe@gmail.com") "customer" PENDING]
                     (inviteData aliasInvited plainRequest threeEmails) [])))
  /\ ~ In (invite None (Some "jo.doe@gmail.com") "customer" PENDING)
          (fst (fst (buildCreateInvitePromises aliasInvited plainRequest threeEmails
                       [invite None (Some "jodoe@gmail.com") "customer" PENDING]
                       (inviteData aliasInvited plainRequest threeEmails) []))).
Proof.
  assert (H1 : lookupUserEmails aliasInvited
                 ["bob@X.com"; "jo.doe@gmail.com"; "new@x.com"]
               = Resolved [User.mk 9 (Some "Bob@x.com")]) by reflexivity.
  assert (H2 : forall e i,
             In e ["bob@X.com"; "jo.doe@gmail.com"; "new@x.com"] ->
             In i [invite None (Some "jodoe@gmail.com") "customer" PENDING] ->
             returns (compareEmail (Invite.email i) (Some e) gmailOn)).
  { intros e i [<-|[<-|[<-|[]]]] [<-|[]]; eexists; reflexivity. }
  pose proof (@email_path_materialisation constants aliasInvited plainRequest
                threeEmails threeEmails
                [invite None (Some "jodoe@gmail.com") "customer" PENDING] []
                ["bob@X.com"; "jo.doe@gmail.com"; "new@x.com"]
                [User.mk 9 (Some "Bob@x.com")] eq_refl H1 H2) as [_ M].
  refine (conj H1 (conj H2 (conj _ (conj _ _)))).
  - apply M. right; left. exists (User.mk 9 (Some "Bob@x.com")).
    repeat split. now left.
  - apply M. right; right. exists "new@x.com". repeat split.
    + right; right; now left.
    + intros user [<-|[]]. reflexivity.
    + intros i [<-|[]]. reflexivity.
  - intros H.
    apply M in H as [(u & [] & _)|[(user & [<-|[]] & _ & E)|(e & He & _ & Hi & E)]].
    + discriminate E.
    + specialize (Hi _ (or_introl eq_refl)).
      destruct He as [<-|[<-|[<-|[]]]]; discriminate.
Defined.

(** Two runs of [response_aggregation].  The scenario of the specification:
    nothing fails and the answer is 201 with the success list only.  Then a
    request for the manager role with two user ids and an e-mail: the e-mail
    and user 2 are refused by two different checks, user 1 is invited, and the
    answer is 403 with both lists. *)
Lemma response_aggregation_run :
  fst (run fresh plainRequest)
  = Json 201 {| success := [invite (Some 7) None "customer" PENDING];
                failed := None |}
  /\ fst (run managerWorld mixedRequest)
     = Json 403
         {| success := [invite (Some 1) None "manager" PENDING];
            failed :=
              Some [{| Failure.userId := None;
                       Failure.email := Some "a@x.com";
                       Failure.message :=
                         Some "Emails can only be used for customer" |};
                    {| Failure.userId := Some 2;
                       Failure.email := None;
                       Failure.message :=
                         Some "cannot be added with a Manager role to the project" |}] |}.
Proof.
  split.
  - refine (proj2 (@response_aggregation constants fresh plainRequest 201
                     {| success := [invite (Some 7) None "customer" PENDING];
                        failed := None |}) _).
    exists {| Param.userIds := Some [7]; Param.emails := None;
              Param.role := "customer" |}, [], [], [].
    refine (conj eq_refl (conj eq_refl (conj (fun d _ => eq_refl) (conj eq_refl _)))).
    left. repeat split.
  - refine (proj2 (@response_aggregation constants managerWorld mixedRequest 403
                     {| success := [invite (Some 1) None "manager" PENDING];
                        failed :=
                          Some [emailRoleFailure "a@x.com"; managerFailure (Some 2)] |})
                  _).
    exists {| Param.userIds := Some [1]; Param.emails := None;
              Param.role := "manager" |},
           [emailRoleFailure "a@x.com"; managerFailure (Some 2)],
           [GetUserRoles 1; GetUserRoles 2], [].
    refine (conj eq_refl (conj eq_refl (conj (fun d _ => eq_refl) (conj eq_refl _)))).
    right. repeat split. discriminate.
Defined.

(** C3 (counterexample): a caller without a manager-tier role asks for the
    manager role in a request that carries neither user ids nor e-mails; the
    answer is the 400 of the validation, not the 403 of the gate. *)
Lemma gate_not_reached_without_candidates :
  "manager" <> @CUSTOMER constants
  /\ hasRoles fresh (Req.authUser (request [] None None "manager" []))
              (@MANAGER_ROLES constants) = false
  /\ run fresh (request [] None None "manager" [])
     = (Next {| err_status := Some 400;
                err_message := "Either userIds or emails are required";
                err_statusText := None |},
        [])
  /\ Some 400 <> Some 403.
Proof. repeat split; discriminate. Qed.

(** A run of [request_gate_forbidden]: a caller without a manager-tier role
    asks for user 7 as a manager. *)
Lemma request_gate_forbidden_run :
  "manager" <> "customer"
  /\ intersects [] (@MANAGER_ROLES constants) = false
  /\ run fresh (request [] (Some [7]) None "manager" [])
     = (Next {| err_status := Some 403;
                err_message := "You are not allowed to invite user as manager";
                err_statusText := None |},
        []).
Proof.
  assert (H2 : "manager" <> "customer") by discriminate.
  assert (H3 : intersects [] (@MANAGER_ROLES constants) = false) by reflexivity.
  refine (conj H2 (conj H3 _)).
  exact (@request_gate_forbidden constants fresh
           (request [] (Some [7]) None "manager" []) H2 H3).
Defined.

End Runs.

(** * Concrete runs of the further properties *)

Section FurtherRuns.

Import Sample Scenario.
#[local] Existing Instance constants.

(** A run of [compareEmail_on_reflexive]: two dots and mixed case. *)
Lemma compareEmail_on_reflexive_run :
  Js.toLowerCase "Jo.Hn.Doe@Gmail.com" = ("jo.hn.doe" ++ "@gmail.com")%string
  /\ containsChar "+" "jo.hn.doe" = false
  /\ endsWithDot "jo.hn.doe" = false
  /\ compareEmail (Some "Jo.Hn.Doe@Gmail.com") (Some "jo.hn.doe@GMAIL.com") gmailOn
     = Return true.
Proof.
  refine (conj eq_refl (conj eq_refl (conj eq_refl _))).
  refine (@compareEmail_on_reflexive "Jo.Hn.Doe@Gmail.com" "jo.hn.doe@GMAIL.com"
            "jo.hn.doe" "@gmail.com" eq_refl eq_refl eq_refl _ eq_refl eq_refl
            (or_introl eq_refl)).
  discriminate.
Defined.

(** A run of [compareEmail_unanchored]: a pending [joe@gmail.com] is found
    inside [maryjoe@gmail.com]. *)
Lemma compareEmail_unanchored_run :
  gmailExec (Js.toLowerCase "joe@gmail.com") <> None
  /\ compareEmail (Some "joe@gmail.com") (Some "joe@gmail.com") gmailOn = Return true
  /\ compareEmail (Some "joe@gmail.com") (Some "maryjoe@gmail.com") gmailOn
     = Return true.
Proof.
  assert (H1 : gmailExec (Js.toLowerCase "joe@gmail.com") <> None) by discriminate.
  refine (conj H1 (conj eq_refl _)).
  exact (@compareEmail_unanchored "joe@gmail.com" "joe@gmail.com" "mary" EmptyString
           H1 eq_refl).
Defined.

(** A run of [compareEmail_dot_free_first]. *)
Lemma compareEmail_dot_free_first_run :
  forallChars isPlainChar "johndoe" = true
  /\ Dotted "johndoe" "j.ohn.doe"
  /\ compareEmail (Some "JohnDoe@gmail.com") (Some "J.ohn.Doe@GMAIL.com") gmailOn
     = Return true.
Proof.
  assert (D : Dotted "johndoe" "j.ohn.doe").
  { apply Dotted_dot, Dotted_next, Dotted_next, Dotted_dot, Dotted_next,
      Dotted_next, Dotted_last. }
  refine (conj eq_refl (conj D _)).
  exact (@compareEmail_dot_free_first "JohnDoe@gmail.com" "J.ohn.Doe@GMAIL.com"
           "johndoe" "j.ohn.doe" "@gmail.com" eq_refl eq_refl (or_introl eq_refl)
           D eq_refl).
Defined.

(** A run of [manager_tier_check]: user 5 is a member, user 2 has no manager
    role. *)
Lemma manager_tier_check_run :
  nonMembers crowdedRequest = [1; 2]
  /\ (forall u, In u (nonMembers crowdedRequest) ->
                exists roles, getUserRoles managerWorld u = Resolved roles)
  /\ check managerWorld crowdedRequest
     = (Proceed {| Param.userIds := Some [1]; Param.emails := None;
                   Param.role := "manager" |}
                [{| Failure.userId := None; Failure.email := Some "a@x.com";
                    Failure.message := Some "Emails can only be used for customer" |};
                 {| Failure.userId := Some 2; Failure.email := None;
                    Failure.message :=
                      Some "cannot be added with a Manager role to the project" |}],
        [GetUserRoles 1; GetUserRoles 2]).
Proof.
  assert (H : forall u, In u (nonMembers crowdedRequest) ->
                exists roles, getUserRoles managerWorld u = Resolved roles)
    by (intros u _; eexists; reflexivity).
  refine (conj eq_refl (conj H _)).
  exact (@manager_tier_check constants managerWorld crowdedRequest [1; 2; 5]
           eq_refl eq_refl eq_refl H).
Defined.

(** A run of [role_lookup_rejection_fatal]. *)
Lemma role_lookup_rejection_fatal_run :
  In 2 (nonMembers managerRequest)
  /\ getUserRoles rolesDown 2 = Rejected lookupDown
  /\ exists err u',
       In u' (nonMembers managerRequest)
       /\ getUserRoles rolesDown u' = Rejected err
       /\ run rolesDown managerRequest = (Next err, [GetUserRoles 1; GetUserRoles 2]).
Proof.
  assert (H : In 2 (nonMembers managerRequest)) by (right; left; reflexivity).
  refine (conj H (conj eq_refl _)).
  exact (@role_lookup_rejection_fatal constants rolesDown managerRequest 2 lookupDown
           eq_refl eq_refl H eq_refl).
Defined.

(** A run of [success_is_created_and_announced]. *)
Lemma success_is_created_and_announced_run :
  run (bobKnown []) customerRequest
  = (Json 201 {| success := customerCreated; failed := None |},
     snd (run (bobKnown []) customerRequest))
  /\ created (snd (run (bobKnown []) customerRequest)) = customerCreated
  /\ emitted (snd (run (bobKnown []) customerRequest)) = customerCreated
  /\ published (snd (run (bobKnown []) customerRequest)) = customerCreated.
Proof.
  assert (H : run (bobKnown []) customerRequest
              = (Json 201 {| success := customerCreated; failed := None |},
                 snd (run (bobKnown []) customerRequest))) by reflexivity.
  refine (conj H _).
  exact (@success_is_created_and_announced constants (bobKnown []) customerRequest
           _ _ _ H).
Defined.

(** A run of [fatal_is_silent]: the store rejects one of two invites. *)
Lemma fatal_is_silent_run :
  run storeDown twoCustomers
  = (Next storeError,
     [GetPendingInvitesForProject 1;
      Create (invite (Some 7) None "customer" PENDING);
      Create (invite (Some 8) None "customer" PENDING)])
  /\ forall x,
       In x [GetPendingInvitesForProject 1;
             Create (invite (Some 7) None "customer" PENDING);
             Create (invite (Some 8) None "customer" PENDING)] ->
       isAnnouncement x = false.
Proof.
  assert (H : run storeDown twoCustomers
              = (Next storeError,
                 [GetPendingInvitesForProject 1;
                  Create (invite (Some 7) None "customer" PENDING);
                  Create (invite (Some 8) None "customer" PENDING)])) by reflexivity.
  refine (conj H _).
  exact (@fatal_is_silent constants storeDown twoCustomers _ _ H).
Defined.

(** A run of [create_rejection_fatal]. *)
Lemma create_rejection_fatal_run :
  In (Create (invite (Some 8) None "customer" PENDING)) (snd (run storeDown twoCustomers))
  /\ createRejection storeDown (invite (Some 8) None "customer" PENDING)
     = Some storeError
  /\ exists err, fst (run storeDown twoCustomers) = Next err.
Proof.
  assert (H : In (Create (invite (Some 8) None "customer" PENDING))
                 (snd (run storeDown twoCustomers)))
    by (right; right; left; reflexivity).
  refine (conj H (conj eq_refl _)).
  exact (@create_rejection_fatal constants storeDown twoCustomers
           (invite (Some 8) None "customer" PENDING) storeError H eq_refl).
Defined.

(** A run of [created_from_request]. *)
Lemma created_from_request_run :
  In (Create (invite (Some 7) None "customer" PENDING)) (snd (run fresh plainRequest))
  /\ Invite.projectId (invite (Some 7) None "customer" PENDING) = 1
  /\ Invite.role (invite (Some 7) None "customer" PENDING) = "customer"
  /\ Invite.createdBy (invite (Some 7) None "customer" PENDING) = 40051333
  /\ Invite.updatedBy (invite (Some 7) None "customer" PENDING) = 40051333.
Proof.
  assert (H : In (Create (invite (Some 7) None "customer" PENDING))
                 (snd (run fresh plainRequest)))
    by (right; left; reflexivity).
  refine (conj H _).
  exact (@created_from_request constants fresh plainRequest _ H).
Defined.

(** A run of [never_reinvites_user]: of the users 7 and 8, only 8 is
    invited. *)
Lemma never_reinvites_user_run :
  In (Create (invite (Some 8) None "customer" PENDING))
     (snd (run sevenInvited twoCustomers))
  /\ created (snd (run sevenInvited twoCustomers))
     = [invite (Some 8) None "customer" PENDING]
  /\ invitedUserId [invite (Some 7) None "customer" PENDING] 8 = false.
Proof.
  assert (H : In (Create (invite (Some 8) None "customer" PENDING))
                 (snd (run sevenInvited twoCustomers)))
    by (right; left; reflexivity).
  refine (conj H (conj eq_refl _)).
  exact (@never_reinvites_user constants sevenInvited twoCustomers
           [invite (Some 7) None "customer" PENDING]
           (invite (Some 8) None "customer" PENDING) 8 eq_refl H eq_refl).
Defined.

(** A run of [email_only_invite_sound]. *)
Lemma email_only_invite_sound_run :
  In (Create (invite None (Some "new@x.com") "customer" PENDING))
     (snd (run aliasInvited threeEmailsRequest))
  /\ "customer" = CUSTOMER
  /\ exists es users e,
       Param.emails (Req.body_param threeEmailsRequest) = Some es
       /\ lookupUserEmails aliasInvited es = Resolved users
       /\ In e es
       /\ Some "new@x.com" = Some (Js.toLowerCase e)
       /\ (forall user, In user users ->
             compareEmail (User.email user) (Some e) gmailOff = Return false)
       /\ (forall i, In i [invite None (Some "jodoe@gmail.com") "customer" PENDING] ->
             compareEmail (Invite.email i) (Some e) gmailOn = Return false).
Proof.
  assert (H : In (Create (invite None (Some "new@x.com") "customer" PENDING))
                 (snd (run aliasInvited threeEmailsRequest)))
    by (right; right; right; left; reflexivity).
  refine (conj H _).
  exact (@email_only_invite_sound constants aliasInvited threeEmailsRequest
           [invite None (Some "jodoe@gmail.com") "customer" PENDING]
           (invite None (Some "new@x.com") "customer" PENDING) eq_refl H eq_refl).
Defined.

(** A run of [failures_name_candidates]: the entry of user 2. *)
Lemma failures_name_candidates_run :
  run managerWorld mixedRequest
  = (Json 403
       {| success := [invite (Some 1) None "manager" PENDING];
          failed := Some [emailRoleFailure "a@x.com"; managerFailure (Some 2)] |},
     snd (run managerWorld mixedRequest))
  /\ ((exists e,
          In e ["a@x.com"]
          /\ (("manager" <> CUSTOMER /\ managerFailure (Some 2) = emailRoleFailure e)
              \/ ("manager" = CUSTOMER
                  /\ exists error, managerFailure (Some 2) = lookupFailure error e)))
      \/ (exists u,
             In u (nonMembers mixedRequest)
             /\ includes PROJECT_MEMBER_MANAGER_ROLES "manager" = true
             /\ lacksManagerRole managerWorld u = true
             /\ managerFailure (Some 2) = managerFailure (Some u))).
Proof.
  assert (H : run managerWorld mixedRequest
              = (Json 403
                   {| success := [invite (Some 1) None "manager" PENDING];
                      failed := Some [emailRoleFailure "a@x.com";
                                      managerFailure (Some 2)] |},
                 snd (run managerWorld mixedRequest))) by reflexivity.
  refine (conj H _).
  exact (@failures_name_candidates constants managerWorld mixedRequest _ _ _
           (managerFailure (Some 2)) H (or_intror (or_introl eq_refl))).
Defined.

(** A run of [lookups_are_needed]: the roles of user 1 are fetched. *)
Lemma lookups_are_needed_run :
  In (GetUserRoles 1) (snd (run managerWorld managerRequest))
  /\ includes PROJECT_MEMBER_MANAGER_ROLES "manager" = true
  /\ In 1 (nonMembers managerRequest).
Proof.
  assert (H : In (GetUserRoles 1) (snd (run managerWorld managerRequest)))
    by (left; reflexivity).
  refine (conj H _).
  exact (@lookups_are_needed constants managerWorld managerRequest (GetUserRoles 1) H).
Defined.

(** A run of [user_id_path_end_to_end]: the member 5 and user 2, who has no
    manager role, are left out. *)
Lemma user_id_path_end_to_end_run :
  run managerWorld crowdedRequest
  = (Json 403
       {| success := [invite (Some 1) None "manager" PENDING];
          failed := Some [emailRoleFailure "a@x.com"; managerFailure (Some 2)] |},
     snd (run managerWorld crowdedRequest))
  /\ "manager" <> CUSTOMER
  /\ [invite (Some 1) None "manager" PENDING]
     = map (fun u => withIdentity
                       (inviteData managerWorld crowdedRequest
                                   (Req.body_param crowdedRequest))
                       (Some u) None)
           (_remove (invitedUserId [])
              (filter (fun u => negb (lacksManagerRole managerWorld u))
                      (nonMembers crowdedRequest))).
Proof.
  assert (H : run managerWorld crowdedRequest
              = (Json 403
                   {| success := [invite (Some 1) None "manager" PENDING];
                      failed := Some [emailRoleFailure "a@x.com";
                                      managerFailure (Some 2)] |},
                 snd (run managerWorld crowdedRequest))) by reflexivity.
  assert (H2 : "manager" <> CUSTOMER) by discriminate.
  refine (conj H (conj H2 _)).
  exact (@user_id_path_end_to_end constants managerWorld crowdedRequest [] _ _ _
           H eq_refl (or_intror H2)).
Defined.

(** A run of [missing_candidates_rejected]: a caller without roles asks for
    the manager role and names nobody. *)
Lemma missing_candidates_rejected_run :
  Param.userIds (Req.body_param emptyRequest) = None
  /\ Param.emails (Req.body_param emptyRequest) = None
  /\ run fresh emptyRequest
     = (Next {| err_status := Some 400;
                err_message := "Either userIds or emails are required";
                err_statusText := None |},
        []).
Proof.
  refine (conj eq_refl (conj eq_refl _)).
  exact (@missing_candidates_rejected constants fresh emptyRequest eq_refl eq_refl).
Defined.

(** A run of [invitation_mail_recipient]: the mail of an unknown address. *)
Lemma invitation_mail_recipient_run :
  In (SendInviteEmail 1 newcomer) (snd (run fresh newcomerRequest))
  /\ In newcomerEvent
        (eventsOf (sendInviteEmail mailConfig mailWorld (Req.authUser newcomerRequest)
                                   1 newcomer))
  /\ (exists address,
         recipients newcomerEvent = [Some address]
         /\ address <> EmptyString
         /\ Js.toLowerCase address = address)
  /\ project_projectId newcomerEvent = 1
  /\ section_projectId newcomerEvent = 1.
Proof.
  assert (H1 : In (SendInviteEmail 1 newcomer) (snd (run fresh newcomerRequest)))
    by (do 5 right; left; reflexivity).
  assert (H2 : In newcomerEvent
                  (eventsOf (sendInviteEmail mailConfig mailWorld
                               (Req.authUser newcomerRequest) 1 newcomer)))
    by (left; reflexivity).
  refine (conj H1 (conj H2 _)).
  exact (@invitation_mail_recipient constants fresh mailConfig mailWorld
           newcomerRequest 1 newcomer newcomerEvent H1 H2).
Defined.

End FurtherRuns.
